(** * Uptime heartbeat client (src/src/uptime.ts)

    A shallow embedding of the [Uptime] class: the URL builder, the
    constructor, [sendHeartbeat] with its cancellation timer and its
    [try]/[catch], and the three forwarding wrappers.  The host facilities
    the class calls ([setTimeout], [clearTimeout], [AbortController],
    [fetch]) are modelled as operations of a small state-and-exception
    monad over an explicit host state.  The earlier revision of the class
    (src/unnamed/part_001) is embedded in [Legacy] and compared with the
    current one. *)

From Stdlib Require Import ZArith QArith Qpower String Ascii List DecimalString.
From stdpp Require Import gmap strings.

Open Scope Z_scope.

(** ** JavaScript values the class handles *)

Module JS.

(** A JavaScript [number].  A finite value is written as a decimal
    [s * 10^e]; every double has one, the decimal [Number::toString]
    prints for it (the shortest that reads back as the double).  Several
    decimals may denote one value ([Dec 35 (-1)] and [Dec 350 (-2)]); the
    operations below go by the value.  The two zeros are not told apart:
    the class never divides by a zero nor looks at its sign. *)
Inductive number : Type :=
| NaN
| Infinity (negative : bool)
| Dec (s : Z) (e : Z).

Definition Int (z : Z) : number := Dec z 0.

(** The rational a finite number stands for. *)
Definition value (x : number) : option Q :=
  match x with
  | Dec s e => Some (inject_Z s * inject_Z 10 ^ e)%Q
  | _ => None
  end.

(** [x < y] on numbers: [false] as soon as one side is [NaN]. *)
Definition lt (x y : number) : bool :=
  match x, y with
  | NaN, _ | _, NaN => false
  | Infinity nx, Infinity ny => nx && negb ny
  | Infinity nx, Dec _ _ => nx
  | Dec _ _, Infinity ny => negb ny
  | Dec s1 e1, Dec s2 e2 =>
      let m := Z.min e1 e2 in
      s1 * 10 ^ (e1 - m) <? s2 * 10 ^ (e2 - m)
  end.

(** [x > y] is [y < x]. *)
Definition gt (x y : number) : bool := lt y x.

(** ToBoolean: [0], [-0] and [NaN] are falsy; the empty string is falsy. *)
Definition truthy_number (x : number) : bool :=
  match x with
  | NaN => false
  | Infinity _ => true
  | Dec s _ => negb (s =? 0)
  end.

Definition truthy_string (s : string) : bool :=
  match s with
  | EmptyString => false
  | String _ _ => true
  end.

(** [a || b] where [a] may be [undefined]. *)
Definition or_number (a : option number) (b : number) : number :=
  match a with
  | Some x => if truthy_number x then x else b
  | None => b
  end.

Definition or_string (a : option string) (b : string) : string :=
  match a with
  | Some x => if truthy_string x then x else b
  | None => b
  end.

(** [a ?? b]: only [undefined] is replaced. *)
Definition nullish {A : Type} (a : option A) (b : A) : A :=
  match a with
  | Some x => x
  | None => b
  end.

(** Decimal digits of a natural number, most significant first. *)
Definition digits (n : N) : list ascii :=
  list_ascii_of_string (NilZero.string_of_uint (N.to_uint n)).

(** Zeros at the head of a (reversed) digit list: how many, and the rest. *)
Fixpoint drop_zeros (l : list ascii) : nat * list ascii :=
  match l with
  | "0"%char :: l' => let '(c, r) := drop_zeros l' in (S c, r)
  | _ => (O, l)
  end.

Definition zeros (n : Z) : list ascii := repeat "0"%char (Z.to_nat n).

(** Number::toString(x) in radix 10 (ECMA-262, 6.1.6.1.20): with [k]
    significant digits [ds] and decimal point position [n], positional
    notation for [-5 <= n <= 21] and exponent notation otherwise. *)
Definition toString (x : number) : string :=
  match x with
  | NaN => "NaN"
  | Infinity negative => if negative then "-Infinity" else "Infinity"
  | Dec s e =>
      if s =? 0 then "0" else
      let '(z, r) := drop_zeros (rev (digits (Z.abs_N s))) in
      let ds := rev r in
      let k := Z.of_nat (length ds) in
      let n := k + (e + Z.of_nat z) in
      let body :=
        if (-5 <=? n) && (n <=? 21) then
          if k <=? n then ds ++ zeros (n - k)
          else if 0 <? n then
            firstn (Z.to_nat n) ds ++ "."%char :: skipn (Z.to_nat n) ds
          else "0"%char :: "."%char :: zeros (- n) ++ ds
        else
          (match ds with
           | d :: ((_ :: _) as rest) => d :: "."%char :: rest
           | _ => ds
           end)
          ++ "e"%char :: (if n - 1 <? 0 then "-"%char else "+"%char)
          :: digits (Z.abs_N (n - 1)) in
      string_of_list_ascii ((if s <? 0 then ["-"%char] else []) ++ body)
  end.

End JS.

(** ** Errors, responses and requests *)

(** What a [throw] or a rejected promise can carry: an instance of the
    class [UptimeError] (message, [status], [statusText], [cause], each of
    the last three possibly [undefined]), a [DOMException], or any other
    error object.  [cause] is typed [unknown] in the source. *)
#[warnings="-register-all"] Inductive thrown : Type :=
| UptimeError (message : string) (status : option JS.number)
    (statusText : option string) (cause : option thrown)
| DOMException (name message : string)
| Error (name message : string).

(** The parts of a [Response] the class reads, and an opaque body. *)
Record Response : Type := mkResponse {
  ok : bool;
  status : JS.number;
  statusText : string;
  body : string
}.

Inductive httpMethod : Type := HEAD | GET | POST.

Module HeartbeatOptions.
Record t : Type := mk {
  exitCode : option JS.number;
  reportFailure : option bool;
  method : option httpMethod;
  timeout : option JS.number
}.
(** The object [{}]. *)
Definition empty : t := mk None None None None.
(** [{ ...options }] : spreading [undefined] gives [{}]. *)
Definition spread (options : option t) : t := default empty options.
End HeartbeatOptions.

Module UptimeConfig.
Record t : Type := mk {
  baseUrl : option string;
  version : option string;
  defaultTimeout : option JS.number
}.
End UptimeConfig.

(** The private fields of an [Uptime] instance. *)
Record Uptime : Type := mkUptime {
  baseUrl : string;
  userAgent : string;
  defaultTimeout : JS.number
}.

(** The second argument of [fetch]; [signal] names the [AbortController]
    whose signal is passed. *)
Record Request : Type := mkRequest {
  url : string;
  method : httpMethod;
  headers : list (string * string);
  signal : nat
}.

(** ** The constructor and the URL builder *)

Definition constructor (config : option UptimeConfig.t) : Uptime :=
  let baseUrl0 := "https://uptime.betterstack.com/api/v1"%string in
  {| baseUrl :=
       match config ≫= UptimeConfig.baseUrl with
       | Some b => if JS.truthy_string b then b else baseUrl0
       | None => baseUrl0
       end;
     userAgent :=
       "uptime-betterstack-bun/"
       +:+ JS.or_string (config ≫= UptimeConfig.version) "1.0.0";
     defaultTimeout :=
       JS.or_number (config ≫= UptimeConfig.defaultTimeout) (JS.Int 10000) |}.

(** A synchronous computation: a value or a [throw]. *)
Definition result (A : Type) : Type := thrown + A.

Definition buildHeartbeatUrl (this : Uptime) (heartbeatId : string)
    (options : option HeartbeatOptions.t) : result string :=
  if negb (JS.truthy_string heartbeatId) then
    inl (UptimeError "Heartbeat ID is required" None None None)
  else
    let url := baseUrl this +:+ "/heartbeat/" +:+ heartbeatId in
    if default false (options ≫= HeartbeatOptions.reportFailure) then
      inr (url +:+ "/fail")
    else
      match options ≫= HeartbeatOptions.exitCode with
      | Some exitCode =>
          if JS.lt exitCode (JS.Int 0) || JS.gt exitCode (JS.Int 255) then
            inl (UptimeError
                   ("Exit code must be between 0 and 255, got "
                    +:+ JS.toString exitCode) None None None)
          else inr (url +:+ "/" +:+ JS.toString exitCode)
      | None => inr url
      end.

(** ** The host: timers, abort controllers and the transport *)

(** An armed timer created by [setTimeout(() => controller.abort(), ms)]:
    the controller its callback aborts, and the delay it was armed with. *)
Record timer : Type := mkTimer {
  aborts : nat;
  delay : JS.number
}.

(** The state a call runs in: the instance ([this]), the armed timers by
    timer id, the next timer id, the number of controllers created, the
    controllers whose [abort()] has run, and the requests handed to
    [fetch] so far (oldest first). *)
Record world : Type := mkWorld {
  this : Uptime;
  timers : gmap nat timer;
  nextTimer : nat;
  controllers : nat;
  aborted : gset nat;
  fetched : list Request
}.

(** How a promise ends: fulfilled with a response or rejected. *)
Inductive settled : Type :=
| Fulfilled (r : Response)
| Rejected (e : thrown).

(** What the promise returned by [fetch] does relative to the timer of
    the call that awaits it: it settles before the timer elapses, or the
    timer elapses first, its callback runs, and the promise then settles
    as [onAbort] says ([None]: it stays pending forever). *)
Inductive promise : Type :=
| SettlesFirst (s : settled)
| TimerFirst (onAbort : option settled).

(** The result of running an [async] body: its promise is fulfilled,
    rejected, or never settles. *)
Inductive outcome (A : Type) : Type :=
| Returned (a : A)
| Thrown (e : thrown)
| Pending.
Arguments Returned {A} a.
Arguments Thrown {A} e.
Arguments Pending {A}.

(** State and exceptions. *)
Record M (A : Type) : Type := mkM { run : world -> outcome A * world }.
Arguments mkM {A} _.
Arguments run {A} _ _.

#[export] Instance M_ret : MRet M := fun A a => mkM (fun w => (Returned a, w)).

#[export] Instance M_bind : MBind M := fun A B f m =>
  mkM (fun w =>
         match run m w with
         | (Returned a, w') => run (f a) w'
         | (Thrown e, w') => (Thrown e, w')
         | (Pending, w') => (Pending, w')
         end).

Definition throw {A : Type} (e : thrown) : M A := mkM (fun w => (Thrown e, w)).

(** [try { body } catch (error) { handler error }]. *)
Definition try_catch {A : Type} (body : M A) (handler : thrown -> M A) : M A :=
  mkM (fun w =>
         match run body w with
         | (Thrown e, w') => run (handler e) w'
         | r => r
         end).

(** A synchronous throw inside an [async] function rejects its promise. *)
Definition lift {A : Type} (r : result A) : M A :=
  match r with
  | inl e => throw e
  | inr a => mret a
  end.

Definition getThis : M Uptime := mkM (fun w => (Returned (this w), w)).

(** [new AbortController()]: a fresh controller, not aborted. *)
Definition newAbortController : M nat :=
  mkM (fun w =>
         (Returned (controllers w),
          mkWorld (this w) (timers w) (nextTimer w) (S (controllers w))
            (aborted w) (fetched w))).

(** [setTimeout(() => controller.abort(), ms)] returns the new timer's id. *)
Definition setTimeout (controller : nat) (ms : JS.number) : M nat :=
  mkM (fun w =>
         (Returned (nextTimer w),
          mkWorld (this w) (<[nextTimer w := mkTimer controller ms]> (timers w))
            (S (nextTimer w)) (controllers w) (aborted w) (fetched w))).

(** [clearTimeout(id)]: the timer, if still armed, is disarmed. *)
Definition clearTimeout (id : nat) : M unit :=
  mkM (fun w =>
         (Returned tt,
          mkWorld (this w) (delete id (timers w)) (nextTimer w)
            (controllers w) (aborted w) (fetched w))).

(** The timer [id] elapses: if it is still armed its callback runs
    ([controller.abort()]) and the timer is gone. *)
Definition fire (id : nat) (w : world) : world :=
  match timers w !! id with
  | Some t =>
      mkWorld (this w) (delete id (timers w)) (nextTimer w) (controllers w)
        ({[aborts t]} ∪ aborted w) (fetched w)
  | None => w
  end.

Section Transport.

(** The global [fetch]: for each request, what its promise does. *)
Variable fetch : Request -> promise.

(** The call [fetch(url, init)]: the request is handed to the transport. *)
Definition callFetch (req : Request) : M promise :=
  mkM (fun w =>
         (Returned (fetch req),
          mkWorld (this w) (timers w) (nextTimer w) (controllers w)
            (aborted w) (fetched w ++ [req]))).

(** [await p] while the timer [timeoutId] is pending. *)
Definition await (timeoutId : nat) (p : promise) : M Response :=
  mkM (fun w =>
         match p with
         | SettlesFirst (Fulfilled r) => (Returned r, w)
         | SettlesFirst (Rejected e) => (Thrown e, w)
         | TimerFirst (Some (Fulfilled r)) => (Returned r, fire timeoutId w)
         | TimerFirst (Some (Rejected e)) => (Thrown e, fire timeoutId w)
         | TimerFirst None => (Pending, fire timeoutId w)
         end).

(** The [catch (error)] block of [sendHeartbeat]. *)
Definition sendHeartbeat_catch (timeout : JS.number) (error : thrown)
    : M Response :=
  match error with
  | UptimeError _ _ _ _ => throw error
  | DOMException name _ =>
      if String.eqb name "AbortError" then
        throw (UptimeError
                 ("Request timed out after " +:+ JS.toString timeout +:+ "ms")
                 None None (Some error))
      else throw (UptimeError "Failed to send heartbeat" None None (Some error))
  | Error _ _ =>
      throw (UptimeError "Failed to send heartbeat" None None (Some error))
  end.

Definition sendHeartbeat (heartbeatId : string)
    (options : option HeartbeatOptions.t) : M Response :=
  this ← getThis;
  url ← lift (buildHeartbeatUrl this heartbeatId options);
  let method := default GET (options ≫= HeartbeatOptions.method) in
  let timeout :=
    JS.nullish (options ≫= HeartbeatOptions.timeout) (defaultTimeout this) in
  try_catch
    (controller ← newAbortController;
     timeoutId ← setTimeout controller timeout;
     p ← callFetch
           (mkRequest url method
              [("Accept", "application/json"); ("User-Agent", userAgent this)]
              controller);
     response ← await timeoutId p;
     clearTimeout timeoutId;;
     if negb (ok response) then
       throw (UptimeError
                ("Heartbeat failed: " +:+ JS.toString (status response)
                 +:+ " " +:+ statusText response)
                (Some (status response)) (Some (statusText response)) None)
     else mret response)
    (sendHeartbeat_catch timeout).

Definition reportSuccess (heartbeatId : string)
    (options : option HeartbeatOptions.t) : M Response :=
  sendHeartbeat heartbeatId options.

Definition reportFailure (heartbeatId : string)
    (options : option HeartbeatOptions.t) : M Response :=
  let o := HeartbeatOptions.spread options in
  sendHeartbeat heartbeatId
    (Some (HeartbeatOptions.mk (HeartbeatOptions.exitCode o) (Some true)
             (HeartbeatOptions.method o) (HeartbeatOptions.timeout o))).

Definition reportWithExitCode (heartbeatId : string) (exitCode : JS.number)
    (options : option HeartbeatOptions.t) : M Response :=
  let o := HeartbeatOptions.spread options in
  sendHeartbeat heartbeatId
    (Some (HeartbeatOptions.mk (Some exitCode)
             (HeartbeatOptions.reportFailure o)
             (HeartbeatOptions.method o) (HeartbeatOptions.timeout o))).

End Transport.

(** ** A client's lifetime *)

(** [new Uptime(config)] in a fresh host. *)
Definition new (config : option UptimeConfig.t) : world :=
  mkWorld (constructor config) ∅ 0 0 ∅ [].

(** A call of one of the four public methods. *)
Inductive call : Type :=
| SendHeartbeat (heartbeatId : string) (options : option HeartbeatOptions.t)
| ReportSuccess (heartbeatId : string) (options : option HeartbeatOptions.t)
| ReportFailure (heartbeatId : string) (options : option HeartbeatOptions.t)
| ReportWithExitCode (heartbeatId : string) (exitCode : JS.number)
    (options : option HeartbeatOptions.t).

Definition perform (fetch : Request -> promise) (c : call) : M Response :=
  match c with
  | SendHeartbeat i o => sendHeartbeat fetch i o
  | ReportSuccess i o => reportSuccess fetch i o
  | ReportFailure i o => reportFailure fetch i o
  | ReportWithExitCode i x o => reportWithExitCode fetch i x o
  end.

(** What happens to a client over time: a method is called against some
    behaviour of the transport, or a timer armed earlier elapses. *)
Inductive event : Type :=
| Call (fetch : Request -> promise) (c : call)
| TimerElapses (id : nat).

Definition step (w : world) (ev : event) : world :=
  match ev with
  | Call fetch c => snd (run (perform fetch c) w)
  | TimerElapses id => fire id w
  end.

Definition lifetime (evs : list event) (w : world) : world :=
  fold_left step evs w.

(** ** Vocabulary of the specification *)

(** The four variants of the error kind (spec, section 7). *)
Inductive variant : Type :=
| InvalidArgument
| Timeout
| TransportFailure
| HttpFailure.

(** The variant an error belongs to, by what it carries: a message only;
    a cause that is the abort signal's [AbortError]; any other cause; a
    status and status text.  A raw error has none. *)
Definition variantOf (e : thrown) : option variant :=
  match e with
  | UptimeError _ None None None => Some InvalidArgument
  | UptimeError _ None None (Some (DOMException name _)) =>
      if String.eqb name "AbortError" then Some Timeout
      else Some TransportFailure
  | UptimeError _ None None (Some _) => Some TransportFailure
  | UptimeError _ (Some _) (Some _) None => Some HttpFailure
  | _ => None
  end.

(** An integer in decimal, as a URL segment shows it. *)
Definition decimal (z : Z) : string := NilZero.string_of_int (Z.to_int z).

(** The reference definition of URL construction, following the five
    numbered steps of the specification (section 4.1) word for word, with
    the exit code an optional integer as in its data model. *)
Definition buildHeartbeatUrl_reference (baseUrl heartbeatId : string)
    (reportFailure : bool) (exitCode : option Z) : variant + string :=
  if decide (heartbeatId = ""%string) then inl InvalidArgument
  else
    let base := baseUrl +:+ "/heartbeat/" +:+ heartbeatId in
    if reportFailure then inr (base +:+ "/fail")
    else
      match exitCode with
      | Some c =>
          if decide (0 <= c <= 255) then inr (base +:+ "/" +:+ decimal c)
          else inl InvalidArgument
      | None => inr base
      end.

(** How a result of the code shows in the vocabulary of the specification. *)
Definition surfaces (r : result string) : option (variant + string) :=
  match r with
  | inl e => inl <$> variantOf e
  | inr u => Some (inr u)
  end.

(** The effective timeout and the request of a call, as [sendHeartbeat]
    computes them. *)
Definition effectiveTimeout (this : Uptime)
    (options : option HeartbeatOptions.t) : JS.number :=
  JS.nullish (options ≫= HeartbeatOptions.timeout) (defaultTimeout this).

Definition requestOf (this : Uptime) (url : string)
    (options : option HeartbeatOptions.t) (controller : nat) : Request :=
  mkRequest url (default GET (options ≫= HeartbeatOptions.method))
    [("Accept", "application/json"); ("User-Agent", userAgent this)]%string
    controller.

(** The world while the request is in flight: the controller is created,
    the timer armed and the request handed to the transport. *)
Definition inflight (w : world) (req : Request) (timeout : JS.number) : world :=
  mkWorld (this w)
    (<[nextTimer w := mkTimer (controllers w) timeout]> (timers w))
    (S (nextTimer w)) (S (controllers w)) (aborted w) (fetched w ++ [req]).

(** A response is obtained from the promise, before or after the timer. *)
Definition obtained (p : promise) (r : Response) : Prop :=
  p = SettlesFirst (Fulfilled r) \/ p = TimerFirst (Some (Fulfilled r)).

(** A rejection that is not of the typed kind and not the abort signal's:
    a network, DNS or connection error. *)
Definition transportError (e : thrown) : Prop :=
  match e with
  | UptimeError _ _ _ _ => False
  | DOMException name _ => name <> "AbortError"%string
  | Error _ _ => True
  end.

(** Some concrete values used in examples. *)
Definition response200 : Response := mkResponse true (JS.Int 200) "OK" "{}".
Definition response404 : Response :=
  mkResponse false (JS.Int 404) "Not Found" "Not Found".
Definition networkError : thrown := Error "TypeError" "fetch failed".
Definition abortError : thrown :=
  DOMException "AbortError" "The operation was aborted.".

(** ** Host bookkeeping *)

(** Timer ids and controller ids are handed out in increasing order: every
    armed timer has an id below the next one and aborts a controller that
    exists, and only controllers that exist have been aborted. *)
Definition wellFormed (w : world) : Prop :=
  (forall id t, timers w !! id = Some t ->
                (id < nextTimer w)%nat /\ (aborts t < controllers w)%nat)
  /\ (forall c, c ∈ aborted w -> (c < controllers w)%nat).

(** The controller [c] exists, has not been aborted, and no armed timer
    is set to abort it. *)
Definition unabortable (c : nat) (w : world) : Prop :=
  (c < controllers w)%nat
  /\ (c ∉ aborted w)
  /\ (forall id t, timers w !! id = Some t -> aborts t <> c).

(** The number of method calls among some events. *)
Definition calls (evs : list event) : nat :=
  length (List.filter
            (fun ev => match ev with Call _ _ => true | TimerElapses _ => false end)
            evs).

(** ** The earlier revision of the client (src/unnamed/part_001)

    The same class before the configuration object, the typed error and
    the timeout were added: the constructor takes the base URL, the URL is
    built inside [sendHeartbeat], errors are plain [Error]s, and the
    [catch] block logs and rethrows. *)

Module Legacy.

Module HeartbeatOptions.
Record t : Type := mk {
  exitCode : option JS.number;
  reportFailure : option bool;
  method : option httpMethod
}.
Definition empty : t := mk None None None.
Definition spread (options : option t) : t := default empty options.
End HeartbeatOptions.

Record Uptime : Type := mkUptime { baseUrl : string }.

(** The second argument of [fetch]: no signal in this revision. *)
Record Request : Type := mkRequest {
  url : string;
  method : httpMethod;
  headers : list (string * string)
}.

Definition constructor (baseUrl : option string) : Uptime :=
  mkUptime
    match baseUrl with
    | Some b =>
        if JS.truthy_string b then b
        else "https://uptime.betterstack.com/api/v1"%string
    | None => "https://uptime.betterstack.com/api/v1"%string
    end.

(** The instance, the lines written by [console.error] (label and error,
    oldest first) and the requests handed to [fetch]. *)
Record host : Type := mkHost {
  this : Uptime;
  console : list (string * thrown);
  fetched : list Request
}.

Record L (A : Type) : Type := mkL { run : host -> outcome A * host }.
Arguments mkL {A} _.
Arguments run {A} _ _.

#[export] Instance L_ret : MRet L := fun A a => mkL (fun h => (Returned a, h)).

#[export] Instance L_bind : MBind L := fun A B f m =>
  mkL (fun h =>
         match run m h with
         | (Returned a, h') => run (f a) h'
         | (Thrown e, h') => (Thrown e, h')
         | (Pending, h') => (Pending, h')
         end).

Definition throw {A : Type} (e : thrown) : L A := mkL (fun h => (Thrown e, h)).

Definition try_catch {A : Type} (body : L A) (handler : thrown -> L A) : L A :=
  mkL (fun h =>
         match run body h with
         | (Thrown e, h') => run (handler e) h'
         | r => r
         end).

Definition getThis : L Uptime := mkL (fun h => (Returned (this h), h)).

(** [console.error(label, error)]. *)
Definition console_error (label : string) (error : thrown) : L unit :=
  mkL (fun h =>
         (Returned tt,
          mkHost (this h) (console h ++ [(label, error)]) (fetched h))).

(** [await p]: the promise settles, or stays pending ([None]). *)
Definition await (p : option settled) : L Response :=
  mkL (fun h =>
         match p with
         | Some (Fulfilled r) => (Returned r, h)
         | Some (Rejected e) => (Thrown e, h)
         | None => (Pending, h)
         end).

Section Transport.

Variable fetch : Request -> option settled.

Definition callFetch (req : Request) : L (option settled) :=
  mkL (fun h =>
         (Returned (fetch req),
          mkHost (this h) (console h) (fetched h ++ [req]))).

Definition sendHeartbeat (heartbeatId : string)
    (options : option HeartbeatOptions.t) : L Response :=
  this ← getThis;
  let url := baseUrl this +:+ "/heartbeat/" +:+ heartbeatId in
  url ← (if default false (options ≫= HeartbeatOptions.reportFailure) then
           mret (url +:+ "/fail")
         else
           match options ≫= HeartbeatOptions.exitCode with
           | Some exitCode =>
               if JS.lt exitCode (JS.Int 0) || JS.gt exitCode (JS.Int 255) then
                 throw (Error "Error" "Exit code must be between 0 and 255")
               else mret (url +:+ "/" +:+ JS.toString exitCode)
           | None => mret url
           end);
  let method := default GET (options ≫= HeartbeatOptions.method) in
  try_catch
    (p ← callFetch
           (mkRequest url method
              [("Accept", "application/json");
               ("User-Agent", "uptime-betterstack-bun/1.0.0")]);
     response ← await p;
     if negb (ok response) then
       throw (Error "Error"
                ("Heartbeat failed: " +:+ JS.toString (status response)
                 +:+ " " +:+ statusText response))
     else mret response)
    (fun error =>
       console_error "Failed to send heartbeat:" error;;
       throw error).

Definition reportSuccess (heartbeatId : string)
    (options : option HeartbeatOptions.t) : L Response :=
  sendHeartbeat heartbeatId options.

Definition reportFailure (heartbeatId : string)
    (options : option HeartbeatOptions.t) : L Response :=
  let o := HeartbeatOptions.spread options in
  sendHeartbeat heartbeatId
    (Some (HeartbeatOptions.mk (HeartbeatOptions.exitCode o) (Some true)
             (HeartbeatOptions.method o))).

Definition reportWithExitCode (heartbeatId : string) (exitCode : JS.number)
    (options : option HeartbeatOptions.t) : L Response :=
  let o := HeartbeatOptions.spread options in
  sendHeartbeat heartbeatId
    (Some (HeartbeatOptions.mk (Some exitCode)
             (HeartbeatOptions.reportFailure o) (HeartbeatOptions.method o))).

End Transport.

(** [new Uptime(baseUrl)] in a fresh host. *)
Definition new (baseUrl : option string) : host :=
  mkHost (constructor baseUrl) [] [].

End Legacy.

(** The options of the current revision as the earlier one sees them (it
    has no [timeout]), and a request without its signal. *)
Definition legacyOptions (o : HeartbeatOptions.t) : Legacy.HeartbeatOptions.t :=
  Legacy.HeartbeatOptions.mk (HeartbeatOptions.exitCode o)
    (HeartbeatOptions.reportFailure o) (HeartbeatOptions.method o).

Definition legacyRequest (r : Request) : Legacy.Request :=
  Legacy.mkRequest (url r) (method r) (headers r).

(** * Properties *)

(** ** Numbers and their rendering *)

Example toString_samples :
  map JS.toString
    [JS.Int 0; JS.Int 255; JS.Int 250; JS.Int (-10); JS.Int 10000;
     JS.Dec 35 (-1); JS.Dec 350 (-2); JS.Dec (-25) (-2); JS.Dec 1 (-6);
     JS.Dec 1 (-7); JS.Dec 12 (-8); JS.Dec 1 21; JS.Dec 123 19; JS.Dec 1 20;
     JS.NaN; JS.Infinity true]
  = ["0"; "255"; "250"; "-10"; "10000";
     "3.5"; "3.5"; "-0.25"; "0.000001";
     "1e-7"; "1.2e-7"; "1e+21"; "1.23e+21"; "100000000000000000000";
     "NaN"; "-Infinity"]%string.
Proof. vm_compute. reflexivity. Qed.

Example buildHeartbeatUrl_samples :
  let c := constructor None in
  let o := HeartbeatOptions.mk in
  map (buildHeartbeatUrl c "abc123")
    [None;
     Some (o (Some (JS.Int 42)) None None None);
     Some (o (Some (JS.Int 300)) (Some true) (Some POST) None);
     Some (o (Some (JS.Dec 35 (-1))) (Some false) None None);
     Some (o (Some (JS.Int 300)) None None None)]
  = [inr "https://uptime.betterstack.com/api/v1/heartbeat/abc123";
     inr "https://uptime.betterstack.com/api/v1/heartbeat/abc123/42";
     inr "https://uptime.betterstack.com/api/v1/heartbeat/abc123/fail";
     inr "https://uptime.betterstack.com/api/v1/heartbeat/abc123/3.5";
     inl (UptimeError "Exit code must be between 0 and 255, got 300"
            None None None)]%string.
Proof. vm_compute. reflexivity. Qed.


(** [lt] is the order of the rationals on finite numbers. *)
Lemma value_shift (s e m : Z) :
  m <= e ->
  (inject_Z s * inject_Z 10 ^ e
   == inject_Z (s * 10 ^ (e - m)) * inject_Z 10 ^ m)%Q.
Proof.
  intros Hm.
  rewrite inject_Z_mult, Zpower_Qpower by lia.
  rewrite <- Qmult_assoc, <- Qpower_plus by discriminate.
  replace (e - m + m) with e by lia. reflexivity.
Qed.

Lemma lt_value (x y : JS.number) (qx qy : Q) :
  JS.value x = Some qx -> JS.value y = Some qy ->
  JS.lt x y = true <-> (qx < qy)%Q.
Proof.
  destruct x as [| |s1 e1], y as [| |s2 e2]; try discriminate.
  intros [= <-] [= <-]. unfold JS.lt.
  rewrite (value_shift s1 e1 (Z.min e1 e2)), (value_shift s2 e2 (Z.min e1 e2))
    by lia.
  rewrite Qmult_lt_r by (apply Qpower_0_lt; reflexivity).
  rewrite <- Zlt_Qlt. apply Z.ltb_lt.
Qed.

Lemma lt_false_value (x y : JS.number) (qx qy : Q) :
  JS.value x = Some qx -> JS.value y = Some qy ->
  (qy <= qx)%Q -> JS.lt x y = false.
Proof.
  intros Hx Hy Hle. apply not_true_is_false. intros Hlt.
  apply (lt_value x y qx qy Hx Hy) in Hlt.
  exact (Qle_not_lt _ _ Hle Hlt).
Qed.

Lemma lt_Int (a b : Z) : JS.lt (JS.Int a) (JS.Int b) = (a <? b).
Proof. unfold JS.lt, JS.Int. cbn. now rewrite !Z.mul_1_r. Qed.

(** On the exit codes 0..255, [toString] prints the plain decimal. *)
Lemma toString_byte (c : Z) :
  0 <= c <= 255 -> JS.toString (JS.Int c) = decimal c.
Proof.
  intros Hc.
  assert (Hall : forallb (fun n => String.eqb (JS.toString (JS.Int (Z.of_nat n)))
                                      (decimal (Z.of_nat n)))
                   (seq 0 256) = true) by (vm_compute; reflexivity).
  rewrite forallb_forall in Hall.
  specialize (Hall (Z.to_nat c)).
  rewrite Z2Nat.id in Hall by lia.
  apply String.eqb_eq, Hall, in_seq. lia.
Qed.

(** ** The URL builder *)

Lemma truthy_string_nonempty (s : string) :
  JS.truthy_string s = true <-> s <> ""%string.
Proof. destruct s; cbn; split; congruence. Qed.

(** C2.  [buildHeartbeatUrl] coincides with the reference definition of
    the specification, a function of the base URL, the identifier, the
    failure flag and the (integer) exit code alone: an empty identifier is
    an InvalidArgument; with [reportFailure] the URL ends in [/fail]
    whatever the exit code is (any number, in range or not); otherwise an
    integer exit code outside 0..255 is an InvalidArgument, one inside is
    appended in decimal, and none leaves the base path. *)
Theorem buildHeartbeatUrl_refines_reference
    (this : Uptime) (heartbeatId : string)
    (options : option HeartbeatOptions.t) (exitCode : option Z) :
  default false (options ≫= HeartbeatOptions.reportFailure) = true
  \/ options ≫= HeartbeatOptions.exitCode = JS.Int <$> exitCode ->
  surfaces (buildHeartbeatUrl this heartbeatId options)
  = Some (buildHeartbeatUrl_reference (baseUrl this) heartbeatId
            (default false (options ≫= HeartbeatOptions.reportFailure))
            exitCode).
Proof.
  intros H. unfold buildHeartbeatUrl, buildHeartbeatUrl_reference.
  destruct heartbeatId as [|a i]; [reflexivity|]. cbn [JS.truthy_string negb].
  destruct (decide _) as [|_]; [discriminate|].
  destruct (default false _); [reflexivity|].
  destruct H as [H|H]; [discriminate|]. rewrite H.
  destruct exitCode as [c|]; cbn [fmap option_fmap option_map]; [|reflexivity].
  unfold JS.gt. rewrite !lt_Int.
  destruct (decide (0 <= c <= 255)) as [Hc|Hc].
  - replace (c <? 0) with false by (symmetry; apply Z.ltb_ge; lia).
    replace (255 <? c) with false by (symmetry; apply Z.ltb_ge; lia).
    cbn [orb surfaces]. now rewrite toString_byte.
  - replace ((c <? 0) || (255 <? c)) with true; [reflexivity|].
    symmetry. apply orb_true_iff. rewrite !Z.ltb_lt. lia.
Qed.

Lemma buildHeartbeatUrl_refines_reference_witness :
  surfaces (buildHeartbeatUrl (constructor None) "abc123"
              (Some (HeartbeatOptions.mk (Some (JS.Int 42)) None (Some POST) None)))
  = Some (inr "https://uptime.betterstack.com/api/v1/heartbeat/abc123/42"%string)
  /\ surfaces (buildHeartbeatUrl (constructor None) "abc123"
                 (Some (HeartbeatOptions.mk (Some (JS.Dec 35 (-1))) (Some true)
                          None None)))
     = Some (inr "https://uptime.betterstack.com/api/v1/heartbeat/abc123/fail"%string)
  /\ surfaces (buildHeartbeatUrl (constructor None) "abc123"
                 (Some (HeartbeatOptions.mk (Some (JS.Int 300)) None None None)))
     = Some (inl InvalidArgument).
Proof.
  split; [|split].
  - rewrite (buildHeartbeatUrl_refines_reference _ _ _ (Some 42));
      [reflexivity | right; reflexivity].
  - rewrite (buildHeartbeatUrl_refines_reference _ _ _ None);
      [reflexivity | left; reflexivity].
  - rewrite (buildHeartbeatUrl_refines_reference _ _ _ (Some 300));
      [reflexivity | right; reflexivity].
Defined.

(** C10.  The exit-code check is a numeric comparison and nothing else:
    with failure reporting off, [NaN] and every finite number whose value
    lies between 0 and 255, integer or not, raise no error and are appended
    to the URL as [toString] prints them. *)
Theorem exit_code_check_is_numeric_only
    (this : Uptime) (heartbeatId : string)
    (options : option HeartbeatOptions.t) (x : JS.number) :
  heartbeatId <> ""%string ->
  default false (options ≫= HeartbeatOptions.reportFailure) = false ->
  options ≫= HeartbeatOptions.exitCode = Some x ->
  x = JS.NaN \/ (exists q, JS.value x = Some q /\ (0 <= q <= 255)%Q) ->
  buildHeartbeatUrl this heartbeatId options
  = inr ((baseUrl this +:+ "/heartbeat/" +:+ heartbeatId)
         +:+ "/" +:+ JS.toString x).
Proof.
  intros Hid Hrf Hx Hrange. unfold buildHeartbeatUrl.
  apply truthy_string_nonempty in Hid. rewrite Hid, Hrf, Hx. cbn [negb].
  replace (JS.lt x (JS.Int 0) || JS.gt x (JS.Int 255)) with false; [reflexivity|].
  symmetry. apply orb_false_iff.
  destruct Hrange as [->|(q & Hq & H0 & H255)]; [split; reflexivity|].
  unfold JS.gt. split.
  - apply (lt_false_value x (JS.Int 0) q _ Hq eq_refl). now rewrite Qmult_1_r.
  - apply (lt_false_value (JS.Int 255) x _ q eq_refl Hq). now rewrite Qmult_1_r.
Qed.

Lemma exit_code_check_is_numeric_only_witness :
  buildHeartbeatUrl (constructor None) "abc123"
    (Some (HeartbeatOptions.mk (Some (JS.Dec 35 (-1))) None None None))
  = inr "https://uptime.betterstack.com/api/v1/heartbeat/abc123/3.5"%string
  /\ buildHeartbeatUrl (constructor None) "abc123"
       (Some (HeartbeatOptions.mk (Some JS.NaN) None None None))
     = inr "https://uptime.betterstack.com/api/v1/heartbeat/abc123/NaN"%string.
Proof.
  split.
  - rewrite (exit_code_check_is_numeric_only _ _ _ (JS.Dec 35 (-1)));
      [reflexivity | discriminate | reflexivity | reflexivity |].
    right. eexists. split; [reflexivity|]. split; vm_compute; discriminate.
  - rewrite (exit_code_check_is_numeric_only _ _ _ JS.NaN);
      [reflexivity | discriminate | reflexivity | reflexivity | now left].
Defined.

(** ** The constructor *)

(** C3, as stated, fails: an empty [baseUrl], an empty [version] and a
    [defaultTimeout] of 0 are supplied and do not take effect. *)
Lemma constructor_falsy_options_fall_back :
  let c := constructor (Some (UptimeConfig.mk (Some "") (Some "")
                                (Some (JS.Int 0)))) in
  baseUrl c = "https://uptime.betterstack.com/api/v1"%string
  /\ baseUrl c <> ""%string
  /\ userAgent c = "uptime-betterstack-bun/1.0.0"%string
  /\ userAgent c <> ("uptime-betterstack-bun/" +:+ "")%string
  /\ defaultTimeout c = JS.Int 10000
  /\ defaultTimeout c <> JS.Int 0.
Proof. repeat split; (reflexivity || discriminate). Qed.

(** C3, amended.  [constructor] is a total function (construction never
    fails), and for every configuration, absent or not: a supplied
    non-empty [baseUrl], a supplied non-empty [version] (as the suffix of
    the User-Agent) and a supplied non-zero integer [defaultTimeout] take
    effect, while each unset option falls back to its default. *)
Theorem constructor_truthy_options_take_effect (config : option UptimeConfig.t) :
  let c := constructor config in
  (forall b, config ≫= UptimeConfig.baseUrl = Some b -> b <> ""%string ->
             baseUrl c = b)
  /\ (forall v, config ≫= UptimeConfig.version = Some v -> v <> ""%string ->
                userAgent c = "uptime-betterstack-bun/" +:+ v)
  /\ (forall z, config ≫= UptimeConfig.defaultTimeout = Some (JS.Int z) ->
                z <> 0 -> defaultTimeout c = JS.Int z)
  /\ (config ≫= UptimeConfig.baseUrl = None ->
      baseUrl c = "https://uptime.betterstack.com/api/v1"%string)
  /\ (config ≫= UptimeConfig.version = None ->
      userAgent c = "uptime-betterstack-bun/1.0.0"%string)
  /\ (config ≫= UptimeConfig.defaultTimeout = None ->
      defaultTimeout c = JS.Int 10000).
Proof.
  unfold constructor. cbn [baseUrl userAgent defaultTimeout].
  repeat split.
  - intros b -> Hb. apply truthy_string_nonempty in Hb. now rewrite Hb.
  - intros v -> Hv. apply truthy_string_nonempty in Hv.
    unfold JS.or_string. now rewrite Hv.
  - intros z -> Hz. unfold JS.or_number, JS.Int. cbn [JS.truthy_number].
    apply Z.eqb_neq in Hz. now rewrite Hz.
  - now intros ->.
  - now intros ->.
  - now intros ->.
Qed.

Lemma constructor_truthy_options_take_effect_witness :
  let c := constructor (Some (UptimeConfig.mk (Some "https://custom.example.com/api")
                                (Some "2.0.0") (Some (JS.Int 5)))) in
  baseUrl c = "https://custom.example.com/api"%string
  /\ userAgent c = "uptime-betterstack-bun/2.0.0"%string
  /\ defaultTimeout c = JS.Int 5.
Proof.
  pose proof (constructor_truthy_options_take_effect
                (Some (UptimeConfig.mk (Some "https://custom.example.com/api")
                         (Some "2.0.0") (Some (JS.Int 5)))))
    as (Hb & Hv & Ht & _).
  split; [|split].
  - apply Hb; [reflexivity | discriminate].
  - apply Hv; [reflexivity | discriminate].
  - apply Ht; [reflexivity | discriminate].
Defined.

(** ** Running [sendHeartbeat] *)

(** The call up to its [await]: a failed URL construction rejects at once;
    otherwise the [try] block continues in the in-flight world. *)
Lemma run_sendHeartbeat (fetch : Request -> promise) (heartbeatId : string)
    (options : option HeartbeatOptions.t) (w : world) :
  run (sendHeartbeat fetch heartbeatId options) w =
  match buildHeartbeatUrl (this w) heartbeatId options with
  | inl e => (Thrown e, w)
  | inr url =>
      let timeout := effectiveTimeout (this w) options in
      let req := requestOf (this w) url options (controllers w) in
      run (try_catch
             (response ← await (nextTimer w) (fetch req);
              clearTimeout (nextTimer w);;
              if negb (ok response) then
                throw (UptimeError
                         ("Heartbeat failed: " +:+ JS.toString (status response)
                          +:+ " " +:+ statusText response)
                         (Some (status response)) (Some (statusText response))
                         None)
              else mret response)
             (sendHeartbeat_catch timeout))
        (inflight w req timeout)
  end.
Proof.
  unfold sendHeartbeat. cbn.
  destruct (buildHeartbeatUrl (this w) heartbeatId options); reflexivity.
Qed.

(** The [catch] block always throws, and what it throws is typed. *)
Lemma sendHeartbeat_catch_typed (timeout : JS.number) (e : thrown) (w : world) :
  exists m s st c,
    run (sendHeartbeat_catch timeout e) w = (Thrown (UptimeError m s st c), w).
Proof.
  destruct e as [m s st c|name m|name m]; cbn.
  - now exists m, s, st, c.
  - destruct (String.eqb name "AbortError"); cbn; eauto.
  - eauto.
Qed.

Lemma fire_this (id : nat) (w : world) : this (fire id w) = this w.
Proof. unfold fire. now destruct (timers w !! id). Qed.

(** Firing the timer armed by the call in flight aborts its controller. *)
Lemma fire_inflight (w : world) (req : Request) (timeout : JS.number) :
  fire (nextTimer w) (inflight w req timeout)
  = mkWorld (this w) (delete (nextTimer w) (timers w)) (S (nextTimer w))
      (S (controllers w)) ({[controllers w]} ∪ aborted w) (fetched w ++ [req]).
Proof.
  unfold fire, inflight. cbn. rewrite lookup_insert_eq. cbn.
  now rewrite delete_insert_eq.
Qed.

(** The scenario of the unit tests: a transport that answers 200. *)
Example sendHeartbeat_samples :
  let fetch := fun _ : Request => SettlesFirst (Fulfilled response200) in
  fst (run (sendHeartbeat fetch "abc123" None) (new None)) = Returned response200
  /\ map url (fetched (snd (run (reportFailure fetch "abc123" None) (new None))))
     = ["https://uptime.betterstack.com/api/v1/heartbeat/abc123/fail"%string]
  /\ map url (fetched (snd (run (reportWithExitCode fetch "abc123" (JS.Int 42)
                                   (Some (HeartbeatOptions.mk None None
                                            (Some HEAD) None)))
                              (new None))))
     = ["https://uptime.betterstack.com/api/v1/heartbeat/abc123/42"%string]
  /\ map method (fetched (snd (run (reportSuccess fetch "abc123"
                                      (Some (HeartbeatOptions.mk None None
                                               (Some HEAD) None)))
                                 (new None))))
     = [HEAD].
Proof. repeat split; vm_compute; reflexivity. Qed.

(** ** The cancellation timer *)

(** When the transport fulfils its promise first, the timer armed by the
    call is disarmed whatever the response says. *)
Lemma sendHeartbeat_fulfilled_disarms (fetch : Request -> promise)
    (heartbeatId : string) (options : option HeartbeatOptions.t) (w : world)
    (url : string) (r : Response) :
  buildHeartbeatUrl (this w) heartbeatId options = inr url ->
  fetch (requestOf (this w) url options (controllers w))
  = SettlesFirst (Fulfilled r) ->
  timers (snd (run (sendHeartbeat fetch heartbeatId options) w)) !! nextTimer w
  = None.
Proof.
  intros Hurl Hfetch. rewrite run_sendHeartbeat, Hurl. cbn zeta.
  unfold try_catch. cbn. rewrite Hfetch. cbn.
  destruct (ok r); cbn; apply lookup_delete_eq.
Qed.

(** C1, at the failing input.  When the transport rejects before the timer
    elapses, [sendHeartbeat] rejects and leaves the timer it armed in the
    host; when that timer elapses later, its callback aborts the
    controller of the call that has already failed. *)
Theorem sendHeartbeat_rejection_leaves_timer_armed
    (fetch : Request -> promise) (heartbeatId : string)
    (options : option HeartbeatOptions.t) (w : world) (url : string)
    (e : thrown) :
  buildHeartbeatUrl (this w) heartbeatId options = inr url ->
  fetch (requestOf (this w) url options (controllers w))
  = SettlesFirst (Rejected e) ->
  let r := run (sendHeartbeat fetch heartbeatId options) w in
  (exists e', fst r = Thrown e')
  /\ timers (snd r) !! nextTimer w
     = Some (mkTimer (controllers w) (effectiveTimeout (this w) options))
  /\ controllers w ∈ aborted (fire (nextTimer w) (snd r)).
Proof.
  intros Hurl Hfetch. rewrite run_sendHeartbeat, Hurl. cbn zeta.
  unfold try_catch. cbn. rewrite Hfetch. cbn.
  set (w1 := inflight w _ _).
  destruct (sendHeartbeat_catch_typed (effectiveTimeout (this w) options) e w1)
    as (m & s & st & c & ->). cbn.
  split; [eauto|]. split.
  - apply lookup_insert_eq.
  - unfold w1. rewrite fire_inflight. cbn. set_solver.
Qed.

Lemma sendHeartbeat_rejection_leaves_timer_armed_witness :
  let r := run (sendHeartbeat (fun _ => SettlesFirst (Rejected networkError))
                  "abc123" None) (new None) in
  (exists e', fst r = Thrown e')
  /\ timers (snd r) !! 0%nat = Some (mkTimer 0 (JS.Int 10000))
  /\ 0%nat ∈ aborted (fire 0 (snd r)).
Proof.
  exact (sendHeartbeat_rejection_leaves_timer_armed
           (fun _ => SettlesFirst (Rejected networkError)) "abc123" None
           (new None) _ networkError eq_refl eq_refl).
Defined.

(** ** Failures *)

(** C8.  An empty identifier makes [sendHeartbeat] reject with an error
    that carries its message and nothing else (no status, no status text,
    no cause), whatever the options, the transport and the host state; the
    host is left as it was. *)
Theorem sendHeartbeat_empty_id (fetch : Request -> promise)
    (options : option HeartbeatOptions.t) (w : world) :
  run (sendHeartbeat fetch "" options) w
  = (Thrown (UptimeError "Heartbeat ID is required" None None None), w)
  /\ variantOf (UptimeError "Heartbeat ID is required" None None None)
     = Some InvalidArgument.
Proof. split; [|reflexivity]. now rewrite run_sendHeartbeat. Qed.

(** C7.  With a non-empty identifier, an integer exit code outside 0..255
    and failure reporting not switched on, [reportWithExitCode], and
    [sendHeartbeat] given that exit code, reject with a message-only error
    and leave the host untouched: no controller, no timer, and no request
    handed to the transport. *)
Theorem out_of_range_exit_code_sends_nothing (fetch : Request -> promise)
    (heartbeatId : string) (z : Z) (options : option HeartbeatOptions.t)
    (w : world) :
  heartbeatId <> ""%string ->
  ~ 0 <= z <= 255 ->
  default false (options ≫= HeartbeatOptions.reportFailure) = false ->
  let e := UptimeError ("Exit code must be between 0 and 255, got "
                        +:+ JS.toString (JS.Int z)) None None None in
  run (reportWithExitCode fetch heartbeatId (JS.Int z) options) w = (Thrown e, w)
  /\ (options ≫= HeartbeatOptions.exitCode = Some (JS.Int z) ->
      run (sendHeartbeat fetch heartbeatId options) w = (Thrown e, w))
  /\ variantOf e = Some InvalidArgument.
Proof.
  intros Hid Hz Hrf e.
  assert (Hbuild : forall o,
             default false (o ≫= HeartbeatOptions.reportFailure) = false ->
             o ≫= HeartbeatOptions.exitCode = Some (JS.Int z) ->
             buildHeartbeatUrl (this w) heartbeatId o = inl e).
  { intros o Ho Hx. unfold buildHeartbeatUrl.
    apply truthy_string_nonempty in Hid. rewrite Hid, Ho, Hx. cbn [negb].
    unfold JS.gt. rewrite !lt_Int.
    replace ((z <? 0) || (255 <? z)) with true; [reflexivity|].
    symmetry. apply orb_true_iff. rewrite !Z.ltb_lt. lia. }
  split; [|split; [|reflexivity]].
  - unfold reportWithExitCode. rewrite run_sendHeartbeat, Hbuild; [reflexivity| |reflexivity].
    destruct options as [o|]; [exact Hrf | reflexivity].
  - intros Hx. now rewrite run_sendHeartbeat, Hbuild.
Qed.

Lemma out_of_range_exit_code_sends_nothing_witness :
  run (reportWithExitCode (fun _ => SettlesFirst (Fulfilled response200))
         "abc123" (JS.Int 300) None) (new None)
  = (Thrown (UptimeError "Exit code must be between 0 and 255, got 300"
               None None None), new None)
  /\ fetched (new None) = [].
Proof.
  split; [|reflexivity].
  apply (out_of_range_exit_code_sends_nothing
           (fun _ => SettlesFirst (Fulfilled response200)) "abc123" 300 None
           (new None)); [discriminate | lia | reflexivity].
Defined.

(** C6.  A response that is obtained and is not [ok] makes [sendHeartbeat]
    reject with an error carrying the response's status and status text,
    no cause, and the message "Heartbeat failed: {status} {statusText}". *)
Theorem sendHeartbeat_http_failure (fetch : Request -> promise)
    (heartbeatId : string) (options : option HeartbeatOptions.t) (w : world)
    (url : string) (r : Response) :
  buildHeartbeatUrl (this w) heartbeatId options = inr url ->
  obtained (fetch (requestOf (this w) url options (controllers w))) r ->
  ok r = false ->
  let e := UptimeError ("Heartbeat failed: " +:+ JS.toString (status r)
                        +:+ " " +:+ statusText r)
             (Some (status r)) (Some (statusText r)) None in
  fst (run (sendHeartbeat fetch heartbeatId options) w) = Thrown e
  /\ variantOf e = Some HttpFailure.
Proof.
  intros Hurl Hfetch Hok e. split; [|reflexivity].
  rewrite run_sendHeartbeat, Hurl. cbn zeta. unfold try_catch. cbn.
  destruct Hfetch as [-> | ->]; cbn; now rewrite Hok.
Qed.

Lemma sendHeartbeat_http_failure_witness :
  fst (run (sendHeartbeat (fun _ => SettlesFirst (Fulfilled response404))
              "test-id" None) (new None))
  = Thrown (UptimeError "Heartbeat failed: 404 Not Found"
              (Some (JS.Int 404)) (Some "Not Found"%string) None).
Proof.
  apply (sendHeartbeat_http_failure
           (fun _ => SettlesFirst (Fulfilled response404)) "test-id" None
           (new None) _ response404 eq_refl (or_introl eq_refl) eq_refl).
Defined.

(** C5, as stated, fails: that the timer elapses first is not enough for
    a Timeout error.  With a default timeout of 5 ms, against a transport
    that never settles the aborted request the call stays pending and
    throws nothing, and against one that answers late the response is
    returned; the controller has been aborted in both cases. *)
Lemma sendHeartbeat_timer_first_without_timeout :
  let w := new (Some (UptimeConfig.mk None None (Some (JS.Int 5)))) in
  let silent :=
    run (sendHeartbeat (fun _ => TimerFirst None) "test-id" None) w in
  let late :=
    run (sendHeartbeat (fun _ => TimerFirst (Some (Fulfilled response200)))
           "test-id" None) w in
  fst silent = Pending
  /\ fst silent <> Thrown (UptimeError "Request timed out after 5ms" None None
                             (Some abortError))
  /\ 0%nat ∈ aborted (snd silent)
  /\ fst late = Returned response200
  /\ 0%nat ∈ aborted (snd late).
Proof.
  cbn zeta. repeat split; try discriminate; vm_compute; reflexivity.
Qed.

(** C5, amended.  When the timer elapses while the request is pending, its
    callback aborts the request; if the transport then rejects the aborted
    request with the signal's [AbortError], as a [fetch] that honours the
    signal does, [sendHeartbeat] rejects with "Request timed out after
    {timeout}ms", [timeout] being the effective timeout, and with that
    [AbortError] as its cause. *)
Theorem sendHeartbeat_timeout (fetch : Request -> promise)
    (heartbeatId : string) (options : option HeartbeatOptions.t) (w : world)
    (url msg : string) :
  buildHeartbeatUrl (this w) heartbeatId options = inr url ->
  fetch (requestOf (this w) url options (controllers w))
  = TimerFirst (Some (Rejected (DOMException "AbortError" msg))) ->
  let r := run (sendHeartbeat fetch heartbeatId options) w in
  let e := UptimeError ("Request timed out after "
                        +:+ JS.toString (effectiveTimeout (this w) options)
                        +:+ "ms")
             None None (Some (DOMException "AbortError" msg)) in
  fst r = Thrown e
  /\ variantOf e = Some Timeout
  /\ controllers w ∈ aborted (snd r)
  /\ timers (snd r) !! nextTimer w = None.
Proof.
  intros Hurl Hfetch. rewrite run_sendHeartbeat, Hurl. cbn zeta.
  unfold try_catch. cbn. rewrite Hfetch. cbn. rewrite fire_inflight. cbn.
  repeat split; [set_solver | apply lookup_delete_eq].
Qed.

Lemma sendHeartbeat_timeout_witness :
  fst (run (sendHeartbeat (fun _ => TimerFirst (Some (Rejected abortError)))
              "test-id" (Some (HeartbeatOptions.mk None None None
                                 (Some (JS.Int 5))))) (new None))
  = Thrown (UptimeError "Request timed out after 5ms" None None
              (Some abortError)).
Proof.
  apply (sendHeartbeat_timeout
           (fun _ => TimerFirst (Some (Rejected abortError))) "test-id"
           (Some (HeartbeatOptions.mk None None None (Some (JS.Int 5))))
           (new None) _ _ eq_refl eq_refl).
Defined.

(** The URL builder throws nothing but typed errors. *)
Lemma buildHeartbeatUrl_typed (this : Uptime) (heartbeatId : string)
    (options : option HeartbeatOptions.t) (e : thrown) :
  buildHeartbeatUrl this heartbeatId options = inl e ->
  exists m s st c, e = UptimeError m s st c.
Proof.
  unfold buildHeartbeatUrl.
  destruct (negb _); [intros [= <-]; eauto|].
  destruct (default false _); [discriminate|].
  destruct (options ≫= HeartbeatOptions.exitCode) as [x|]; [|discriminate].
  destruct (_ || _); [intros [= <-]; eauto | discriminate].
Qed.

(** C4.  Whatever the transport does, a rejection of [sendHeartbeat]
    carries an [UptimeError], never a raw error; the [catch] block rethrows
    an [UptimeError] as it is, so that one coming out of the transport
    reaches the caller unchanged; and a rejection of the transport that is
    neither typed nor the abort signal's is wrapped in an [UptimeError]
    "Failed to send heartbeat" whose cause is that rejection. *)
Theorem sendHeartbeat_failures_are_typed (fetch : Request -> promise)
    (heartbeatId : string) (options : option HeartbeatOptions.t) (w : world) :
  (forall e w', run (sendHeartbeat fetch heartbeatId options) w = (Thrown e, w') ->
                exists m s st c, e = UptimeError m s st c)
  /\ (forall timeout m s st c w0,
         run (sendHeartbeat_catch timeout (UptimeError m s st c)) w0
         = (Thrown (UptimeError m s st c), w0))
  /\ (forall url m s st c,
         buildHeartbeatUrl (this w) heartbeatId options = inr url ->
         fetch (requestOf (this w) url options (controllers w))
         = SettlesFirst (Rejected (UptimeError m s st c)) ->
         fst (run (sendHeartbeat fetch heartbeatId options) w)
         = Thrown (UptimeError m s st c))
  /\ (forall url e,
         buildHeartbeatUrl (this w) heartbeatId options = inr url ->
         fetch (requestOf (this w) url options (controllers w))
         = SettlesFirst (Rejected e) ->
         transportError e ->
         fst (run (sendHeartbeat fetch heartbeatId options) w)
         = Thrown (UptimeError "Failed to send heartbeat" None None (Some e))
         /\ variantOf (UptimeError "Failed to send heartbeat" None None (Some e))
            = Some TransportFailure).
Proof.
  split; [|split; [|split]].
  - intros e w'. rewrite run_sendHeartbeat.
    destruct (buildHeartbeatUrl (this w) heartbeatId options) as [e0|url] eqn:Hurl.
    + intros [= <- _]. exact (buildHeartbeatUrl_typed _ _ _ _ Hurl).
    + cbn zeta. unfold try_catch. cbn.
      set (t := effectiveTimeout (this w) options).
      destruct (fetch _) as [[r|e0]|[[r|e0]|]]; cbn;
        try (destruct (ok r); cbn; intros [= <- _]; eauto; fail);
        try discriminate;
        match goal with
        | |- context [run (sendHeartbeat_catch t e0) ?w1] =>
            destruct (sendHeartbeat_catch_typed t e0 w1) as (m & s & st & c & ->)
        end; intros [= <- _]; eauto.
  - reflexivity.
  - intros url m s st c Hurl Hfetch. rewrite run_sendHeartbeat, Hurl. cbn zeta.
    unfold try_catch. cbn. now rewrite Hfetch.
  - intros url e Hurl Hfetch He. rewrite run_sendHeartbeat, Hurl. cbn zeta.
    unfold try_catch. cbn. rewrite Hfetch. cbn.
    destruct e as [m s st c|name m|name m]; cbn in *; [contradiction| |easy].
    apply String.eqb_neq in He. now rewrite He.
Qed.

Lemma sendHeartbeat_failures_are_typed_witness :
  fst (run (sendHeartbeat (fun _ => SettlesFirst (Rejected networkError))
              "test-id" None) (new None))
  = Thrown (UptimeError "Failed to send heartbeat" None None (Some networkError)).
Proof.
  pose proof (sendHeartbeat_failures_are_typed
                (fun _ => SettlesFirst (Rejected networkError)) "test-id" None
                (new None)) as (_ & _ & _ & Hwrap).
  exact (proj1 (Hwrap _ networkError eq_refl eq_refl I)).
Defined.

(** ** The configuration *)

Lemma sendHeartbeat_this (fetch : Request -> promise) (heartbeatId : string)
    (options : option HeartbeatOptions.t) (w : world) :
  this (snd (run (sendHeartbeat fetch heartbeatId options) w)) = this w.
Proof.
  rewrite run_sendHeartbeat.
  destruct (buildHeartbeatUrl (this w) heartbeatId options) as [e|url];
    [reflexivity|].
  cbn zeta. unfold try_catch. cbn.
  set (t := effectiveTimeout (this w) options).
  destruct (fetch _) as [[r|e]|[[r|e]|]]; cbn;
    try (destruct (ok r); cbn; now rewrite ?fire_this);
    try (now rewrite fire_this);
    match goal with
    | |- context [run (sendHeartbeat_catch t e) ?w1] =>
        destruct (sendHeartbeat_catch_typed t e w1) as (m & s & st & c & ->)
    end; cbn; now rewrite ?fire_this.
Qed.

Lemma perform_this (fetch : Request -> promise) (c : call) (w : world) :
  this (snd (run (perform fetch c) w)) = this w.
Proof. destruct c; apply sendHeartbeat_this. Qed.

(** C9.  The fields of the client are those the constructor set, and no
    course of events changes them: not a call of [sendHeartbeat],
    [reportSuccess], [reportFailure] or [reportWithExitCode], whatever the
    transport answers and whether the call succeeds, fails or stays
    pending, and not a timer elapsing in between. *)
Theorem configuration_is_preserved :
  (forall config, this (new config) = constructor config)
  /\ (forall (evs : list event) (w : world), this (lifetime evs w) = this w).
Proof.
  split; [reflexivity|].
  induction evs as [|ev evs IH]; intros w; [reflexivity|].
  cbn [lifetime fold_left]. fold (lifetime evs (step w ev)). rewrite IH.
  destruct ev as [fetch c|id]; [apply perform_this | apply fire_this].
Qed.

(** * Further properties of the client *)

(** ** Outcomes of a call *)

(** The [catch] block leaves the host as it is. *)
Lemma sendHeartbeat_catch_world (timeout : JS.number) (e : thrown) (w : world) :
  snd (run (sendHeartbeat_catch timeout e) w) = w
  /\ fst (run (sendHeartbeat_catch timeout e) w) <> Pending
  /\ forall r, fst (run (sendHeartbeat_catch timeout e) w) <> Returned r.
Proof.
  destruct (sendHeartbeat_catch_typed timeout e w) as (m & s & st & c & ->).
  repeat split; discriminate.
Qed.

(** The whole course of a call whose URL builds, by what the transport
    does with the request. *)
Lemma sendHeartbeat_cases (fetch : Request -> promise) (heartbeatId : string)
    (options : option HeartbeatOptions.t) (w : world) (url : string) :
  buildHeartbeatUrl (this w) heartbeatId options = inr url ->
  let t := effectiveTimeout (this w) options in
  let w1 := inflight w (requestOf (this w) url options (controllers w)) t in
  let finish (r : Response) (w2 : world) :=
    (if ok r then Returned r
     else Thrown (UptimeError
                    ("Heartbeat failed: " +:+ JS.toString (status r)
                     +:+ " " +:+ statusText r)
                    (Some (status r)) (Some (statusText r)) None),
     snd (run (clearTimeout (nextTimer w)) w2)) in
  run (sendHeartbeat fetch heartbeatId options) w =
  match fetch (requestOf (this w) url options (controllers w)) with
  | SettlesFirst (Fulfilled r) => finish r w1
  | SettlesFirst (Rejected e) => run (sendHeartbeat_catch t e) w1
  | TimerFirst (Some (Fulfilled r)) => finish r (fire (nextTimer w) w1)
  | TimerFirst (Some (Rejected e)) =>
      run (sendHeartbeat_catch t e) (fire (nextTimer w) w1)
  | TimerFirst None => (Pending, fire (nextTimer w) w1)
  end.
Proof.
  intros Hurl t w1 finish. rewrite run_sendHeartbeat, Hurl. cbn zeta.
  fold t. fold w1. unfold try_catch, finish. cbn.
  destruct (fetch _) as [[r|e]|[[r|e]|]]; cbn; try reflexivity;
    destruct (ok r); reflexivity.
Qed.

(** X1.  [sendHeartbeat] is fulfilled with [r] exactly when the URL builds
    and the transport produced the response [r] with [r.ok] true: a
    response that is not ok is never returned, and the response returned
    is the transport's own. *)
Theorem sendHeartbeat_returns_iff (fetch : Request -> promise)
    (heartbeatId : string) (options : option HeartbeatOptions.t) (w : world)
    (r : Response) :
  fst (run (sendHeartbeat fetch heartbeatId options) w) = Returned r <->
  exists url,
    buildHeartbeatUrl (this w) heartbeatId options = inr url
    /\ obtained (fetch (requestOf (this w) url options (controllers w))) r
    /\ ok r = true.
Proof.
  destruct (buildHeartbeatUrl (this w) heartbeatId options) as [e|url] eqn:Hurl.
  - rewrite run_sendHeartbeat, Hurl. split; [discriminate|].
    now intros (u & Hu & _).
  - assert (Hmain :
      fst (run (sendHeartbeat fetch heartbeatId options) w) = Returned r <->
      obtained (fetch (requestOf (this w) url options (controllers w))) r
      /\ ok r = true).
    { rewrite (sendHeartbeat_cases fetch _ _ _ _ Hurl). cbn zeta.
      unfold obtained. set (t := effectiveTimeout (this w) options).
      destruct (fetch _) as [[r0|e]|[[r0|e]|]]; cbn;
        try (destruct (ok r0) eqn:Hok; cbn; split;
             [ intros [= <-]; auto
             | intros ([[= <-]|[= <-]] & _); reflexivity
             | discriminate
             | intros ([[= <-]|[= <-]] & Hr); congruence ]);
        try (split;
             [ intros H; now apply sendHeartbeat_catch_world in H
             | intros ([[=]|[=]] & _) ]).
      split; [discriminate | intros ([[=]|[=]] & _)]. }
    rewrite Hmain. split; [eauto|]. now intros (u & [= <-] & H).
Qed.

(** X2.  [sendHeartbeat] stays pending exactly when the URL builds, the
    timer elapses first and the transport never settles the aborted
    request; in every other case it settles. *)
Theorem sendHeartbeat_pending_iff (fetch : Request -> promise)
    (heartbeatId : string) (options : option HeartbeatOptions.t) (w : world) :
  fst (run (sendHeartbeat fetch heartbeatId options) w) = Pending <->
  exists url,
    buildHeartbeatUrl (this w) heartbeatId options = inr url
    /\ fetch (requestOf (this w) url options (controllers w)) = TimerFirst None.
Proof.
  destruct (buildHeartbeatUrl (this w) heartbeatId options) as [e|url] eqn:Hurl.
  - rewrite run_sendHeartbeat, Hurl. split; [discriminate|].
    now intros (u & Hu & _).
  - assert (Hmain :
      fst (run (sendHeartbeat fetch heartbeatId options) w) = Pending <->
      fetch (requestOf (this w) url options (controllers w)) = TimerFirst None).
    { rewrite (sendHeartbeat_cases fetch _ _ _ _ Hurl). cbn zeta.
      set (t := effectiveTimeout (this w) options).
      destruct (fetch _) as [[r0|e]|[[r0|e]|]]; cbn;
        try (split; [|discriminate];
             first [ destruct (ok r0); discriminate
                   | intros H; now apply sendHeartbeat_catch_world in H ]).
      split; reflexivity. }
    rewrite Hmain. split; [eauto|]. now intros (u & [= <-] & H).
Qed.

(** ** What a call does to the host *)

(** A call that cannot build its URL leaves the host alone; any other
    call creates one controller, takes one timer id, hands one request to
    the transport, and ends with its timer armed (the transport rejected
    first), disarmed (a response came first) or elapsed. *)
Lemma sendHeartbeat_effect (fetch : Request -> promise) (heartbeatId : string)
    (options : option HeartbeatOptions.t) (w : world) :
  let w' := snd (run (sendHeartbeat fetch heartbeatId options) w) in
  match buildHeartbeatUrl (this w) heartbeatId options with
  | inl _ => w' = w
  | inr url =>
      nextTimer w' = S (nextTimer w)
      /\ controllers w' = S (controllers w)
      /\ fetched w' = fetched w ++ [requestOf (this w) url options (controllers w)]
      /\ ((timers w' = <[nextTimer w :=
                          mkTimer (controllers w)
                            (effectiveTimeout (this w) options)]> (timers w)
           /\ aborted w' = aborted w)
          \/ (timers w' = delete (nextTimer w) (timers w)
              /\ aborted w' = aborted w)
          \/ (timers w' = delete (nextTimer w) (timers w)
              /\ aborted w' = {[controllers w]} ∪ aborted w))
  end.
Proof.
  destruct (buildHeartbeatUrl (this w) heartbeatId options) as [e|url] eqn:Hurl;
    cbn zeta.
  - now rewrite run_sendHeartbeat, Hurl.
  - rewrite (sendHeartbeat_cases fetch _ _ _ _ Hurl). cbn zeta.
    set (t := effectiveTimeout (this w) options).
    destruct (fetch _) as [[r|e]|[[r|e]|]];
      rewrite ?(proj1 (sendHeartbeat_catch_world _ _ _)), ?fire_inflight; cbn;
      repeat split;
      rewrite ?delete_insert_eq, ?delete_delete_eq; auto.
Qed.

(** X3.  Whatever the transport does, a call hands it at most one request:
    none when the URL cannot be built, otherwise exactly one, carrying the
    built URL, the requested method or GET, the Accept and User-Agent
    headers and the signal of the call's own new controller. *)
Theorem sendHeartbeat_sends_one_request (fetch : Request -> promise)
    (heartbeatId : string) (options : option HeartbeatOptions.t) (w : world) :
  fetched (snd (run (sendHeartbeat fetch heartbeatId options) w)) =
  match buildHeartbeatUrl (this w) heartbeatId options with
  | inl _ => fetched w
  | inr url =>
      fetched w
      ++ [mkRequest url (default GET (options ≫= HeartbeatOptions.method))
            [("Accept", "application/json");
             ("User-Agent", userAgent (this w))]%string
            (controllers w)]
  end.
Proof.
  pose proof (sendHeartbeat_effect fetch heartbeatId options w) as H.
  cbn zeta in H.
  destruct (buildHeartbeatUrl (this w) heartbeatId options) as [e|url].
  - now rewrite H.
  - now destruct H as (_ & _ & -> & _).
Qed.

Lemma buildHeartbeatUrl_fail (this : Uptime) (heartbeatId : string)
    (options : option HeartbeatOptions.t) :
  heartbeatId <> ""%string ->
  options ≫= HeartbeatOptions.reportFailure = Some true ->
  buildHeartbeatUrl this heartbeatId options
  = inr ((baseUrl this +:+ "/heartbeat/" +:+ heartbeatId) +:+ "/fail").
Proof.
  intros Hid Hrf. unfold buildHeartbeatUrl.
  apply truthy_string_nonempty in Hid. now rewrite Hid, Hrf.
Qed.

(** X4.  With a non-empty identifier, [reportFailure] always sends its one
    request to [{baseUrl}/heartbeat/{id}/fail], with the method of the
    options or GET: no exit code in the options, in range or not, and no
    [reportFailure: false] there can change the path or raise an error. *)
Theorem reportFailure_requests_fail_url (fetch : Request -> promise)
    (heartbeatId : string) (options : option HeartbeatOptions.t) (w : world) :
  heartbeatId <> ""%string ->
  fetched (snd (run (reportFailure fetch heartbeatId options) w)) =
  fetched w
  ++ [mkRequest ((baseUrl (this w) +:+ "/heartbeat/" +:+ heartbeatId) +:+ "/fail")
        (default GET (options ≫= HeartbeatOptions.method))
        [("Accept", "application/json"); ("User-Agent", userAgent (this w))]%string
        (controllers w)].
Proof.
  intros Hid. unfold reportFailure.
  match goal with
  | |- context [sendHeartbeat fetch heartbeatId ?o] =>
      pose proof (sendHeartbeat_effect fetch heartbeatId o w) as H;
      cbn zeta in H;
      rewrite (buildHeartbeatUrl_fail (this w) heartbeatId o Hid eq_refl) in H
  end.
  destruct H as (_ & _ & -> & _). unfold requestOf.
  now destruct options.
Qed.

Lemma reportFailure_requests_fail_url_witness :
  map url (fetched (snd (run (reportFailure
                                (fun _ => SettlesFirst (Fulfilled response200))
                                "test-id"
                                (Some (HeartbeatOptions.mk (Some (JS.Int 300))
                                         (Some false) (Some POST) None)))
                           (new None))))
  = ["https://uptime.betterstack.com/api/v1/heartbeat/test-id/fail"%string].
Proof.
  rewrite (reportFailure_requests_fail_url _ "test-id"); [reflexivity|discriminate].
Defined.

(** X5.  The failure flag wins in [reportWithExitCode] too: when the
    options passed along carry [reportFailure: true], the request goes to
    [.../fail] for every exit code, even one outside 0..255, [NaN] or an
    infinity, and no exit-code error is raised. *)
Theorem reportWithExitCode_failure_flag_wins (fetch : Request -> promise)
    (heartbeatId : string) (exitCode : JS.number)
    (options : option HeartbeatOptions.t) (w : world) :
  heartbeatId <> ""%string ->
  options ≫= HeartbeatOptions.reportFailure = Some true ->
  fetched (snd (run (reportWithExitCode fetch heartbeatId exitCode options) w)) =
  fetched w
  ++ [mkRequest ((baseUrl (this w) +:+ "/heartbeat/" +:+ heartbeatId) +:+ "/fail")
        (default GET (options ≫= HeartbeatOptions.method))
        [("Accept", "application/json"); ("User-Agent", userAgent (this w))]%string
        (controllers w)].
Proof.
  intros Hid Hrf. unfold reportWithExitCode.
  assert (Hrf' : HeartbeatOptions.reportFailure (HeartbeatOptions.spread options)
                 = Some true)
    by (destruct options; [exact Hrf | discriminate]).
  match goal with
  | |- context [sendHeartbeat fetch heartbeatId ?o] =>
      pose proof (sendHeartbeat_effect fetch heartbeatId o w) as H;
      cbn zeta in H;
      rewrite (buildHeartbeatUrl_fail (this w) heartbeatId o Hid Hrf') in H
  end.
  destruct H as (_ & _ & -> & _). unfold requestOf.
  now destruct options.
Qed.

Lemma reportWithExitCode_failure_flag_wins_witness :
  map url (fetched (snd (run (reportWithExitCode
                                (fun _ => SettlesFirst (Fulfilled response200))
                                "test-id" (JS.Int 300)
                                (Some (HeartbeatOptions.mk None (Some true)
                                         None None)))
                           (new None))))
  = ["https://uptime.betterstack.com/api/v1/heartbeat/test-id/fail"%string].
Proof.
  rewrite (reportWithExitCode_failure_flag_wins _ "test-id");
    [reflexivity | discriminate | reflexivity].
Defined.

(** ** The exit-code check, in full *)

(** X6.  With failure reporting off and a non-empty identifier, the exit
    code [x] is refused, with the message-only error that quotes it,
    exactly when [x] is an infinity or a finite number of value below 0 or
    above 255, integer or not. *)
Theorem exit_code_rejected_iff (this : Uptime) (heartbeatId : string)
    (options : option HeartbeatOptions.t) (x : JS.number) :
  heartbeatId <> ""%string ->
  default false (options ≫= HeartbeatOptions.reportFailure) = false ->
  options ≫= HeartbeatOptions.exitCode = Some x ->
  buildHeartbeatUrl this heartbeatId options
  = inl (UptimeError ("Exit code must be between 0 and 255, got "
                      +:+ JS.toString x) None None None)
  <-> (exists negative, x = JS.Infinity negative)
      \/ (exists q, JS.value x = Some q /\ (q < 0 \/ 255 < q)%Q).
Proof.
  intros Hid Hrf Hx. unfold buildHeartbeatUrl.
  apply truthy_string_nonempty in Hid. rewrite Hid, Hrf, Hx. cbn [negb].
  assert (Hcheck : JS.lt x (JS.Int 0) || JS.gt x (JS.Int 255) = true
                   <-> (exists negative, x = JS.Infinity negative)
                       \/ (exists q, JS.value x = Some q /\ (q < 0 \/ 255 < q)%Q)).
  { rewrite orb_true_iff. unfold JS.gt. destruct x as [|negative|s e].
    - split; [intros [[=]|[=]] | intros [[n [=]]|(q & [=] & _)]].
    - split; [eauto|]. intros _. destruct negative; cbn; auto.
    - rewrite (lt_value (JS.Dec s e) (JS.Int 0) _ _ eq_refl eq_refl).
      rewrite (lt_value (JS.Int 255) (JS.Dec s e) _ _ eq_refl eq_refl).
      cbn [Qpower]. rewrite !Qmult_1_r. split.
      + intros H. right. eexists. split; [reflexivity|]. exact H.
      + intros [[n [=]]|(q & [= <-] & H)]. exact H. }
  destruct (JS.lt x (JS.Int 0) || JS.gt x (JS.Int 255)).
  - split; [intros _; now apply Hcheck | reflexivity].
  - split; [discriminate|]. intros H. apply Hcheck in H. discriminate.
Qed.

Lemma exit_code_rejected_iff_witness :
  buildHeartbeatUrl (constructor None) "abc123"
    (Some (HeartbeatOptions.mk (Some (JS.Dec 2555 (-1))) None None None))
  = inl (UptimeError "Exit code must be between 0 and 255, got 255.5"
           None None None).
Proof.
  apply (exit_code_rejected_iff (constructor None) "abc123" _ (JS.Dec 2555 (-1)));
    [discriminate | reflexivity | reflexivity |].
  right. eexists. split; [reflexivity|]. right. vm_compute. reflexivity.
Defined.

Lemma append_cancel (p a b : string) : p +:+ a = p +:+ b -> a = b.
Proof. induction p as [|c p IH]; cbn; [auto|]. intros [= H]. auto. Qed.

Lemma append_not_self (p a : string) : a <> ""%string -> p +:+ a <> p.
Proof.
  intros Ha. induction p as [|c p IH]; cbn; [exact Ha|]. intros [= H]. auto.
Qed.

(** On 0..255 the printed exit code reads back as the exit code, so that
    two of them never print alike. *)
Lemma toString_byte_inj (c1 c2 : Z) :
  0 <= c1 <= 255 -> 0 <= c2 <= 255 ->
  JS.toString (JS.Int c1) = JS.toString (JS.Int c2) -> c1 = c2.
Proof.
  assert (Hback : forall c, 0 <= c <= 255 ->
            match NilZero.int_of_string (JS.toString (JS.Int c)) with
            | Some d => Z.of_int d =? c
            | None => false
            end = true).
  { intros c Hc.
    assert (Hall : forallb (fun n =>
                      match NilZero.int_of_string
                              (JS.toString (JS.Int (Z.of_nat n))) with
                      | Some d => Z.of_int d =? Z.of_nat n
                      | None => false
                      end) (seq 0 256) = true) by (vm_compute; reflexivity).
    rewrite forallb_forall in Hall. specialize (Hall (Z.to_nat c)).
    rewrite Z2Nat.id in Hall by lia. apply Hall, in_seq. lia. }
  intros H1 H2 H. pose proof (Hback c1 H1) as E1. pose proof (Hback c2 H2) as E2.
  rewrite H in E1. destruct (NilZero.int_of_string _); [|discriminate].
  apply Z.eqb_eq in E1, E2. congruence.
Qed.

(** X7.  The URL tells the outcome reported: for a non-empty identifier
    two exit codes in 0..255 give the same URL only if they are equal, and
    the URL of an exit code is neither the plain success URL nor the
    [/fail] URL. *)
Theorem exit_code_urls_are_distinct (this : Uptime) (heartbeatId : string)
    (c1 c2 : Z) (m1 m2 : option httpMethod) (t1 t2 : option JS.number) :
  heartbeatId <> ""%string ->
  0 <= c1 <= 255 -> 0 <= c2 <= 255 ->
  let withCode c m t := Some (HeartbeatOptions.mk (Some (JS.Int c)) None m t) in
  let url1 := buildHeartbeatUrl this heartbeatId (withCode c1 m1 t1) in
  (url1 = buildHeartbeatUrl this heartbeatId (withCode c2 m2 t2) -> c1 = c2)
  /\ url1 <> buildHeartbeatUrl this heartbeatId None
  /\ url1 <> buildHeartbeatUrl this heartbeatId
               (Some (HeartbeatOptions.mk None (Some true) None None)).
Proof.
  intros Hid H1 H2 withCode url1.
  assert (Hcode : forall c m t, 0 <= c <= 255 ->
             buildHeartbeatUrl this heartbeatId (withCode c m t)
             = inr ((baseUrl this +:+ "/heartbeat/" +:+ heartbeatId)
                    +:+ "/" +:+ JS.toString (JS.Int c))).
  { intros c m t Hc. unfold buildHeartbeatUrl, withCode.
    apply truthy_string_nonempty in Hid. rewrite Hid. cbn -[JS.toString JS.lt].
    unfold JS.gt. rewrite !lt_Int.
    replace (c <? 0) with false by (symmetry; apply Z.ltb_ge; lia).
    replace (255 <? c) with false by (symmetry; apply Z.ltb_ge; lia).
    reflexivity. }
  unfold url1. rewrite !Hcode by assumption. split; [|split].
  - intros [= H]. apply append_cancel in H. injection H as H.
    now apply toString_byte_inj.
  - assert (Hplain : buildHeartbeatUrl this heartbeatId None
                     = inr (baseUrl this +:+ "/heartbeat/" +:+ heartbeatId)).
    { unfold buildHeartbeatUrl. apply truthy_string_nonempty in Hid.
      now rewrite Hid. }
    rewrite Hplain. intros [= H]. revert H. apply append_not_self.
    cbn [String.append]. discriminate.
  - rewrite buildHeartbeatUrl_fail by (assumption || reflexivity).
    intros [= H]. apply append_cancel in H. injection H as H.
    assert (Hfail : JS.toString (JS.Int c1) = "fail"%string) by exact H.
    clear H.
    assert (Hall : forallb (fun n => negb (String.eqb
                                             (JS.toString (JS.Int (Z.of_nat n)))
                                             "fail"))
                     (seq 0 256) = true) by (vm_compute; reflexivity).
    rewrite forallb_forall in Hall. specialize (Hall (Z.to_nat c1)).
    rewrite Z2Nat.id, Hfail in Hall by lia.
    assert (Hin : In (Z.to_nat c1) (seq 0 256)) by (apply in_seq; lia).
    apply Hall in Hin. discriminate.
Qed.

Lemma exit_code_urls_are_distinct_witness :
  buildHeartbeatUrl (constructor None) "abc123"
    (Some (HeartbeatOptions.mk (Some (JS.Int 0)) None None None))
  <> buildHeartbeatUrl (constructor None) "abc123" None.
Proof.
  apply (exit_code_urls_are_distinct (constructor None) "abc123" 0 1 None None
           None None); [discriminate | lia | lia].
Defined.

(** ** The constructor, for every configuration *)

(** X8.  Whatever the configuration, the fields of a new client are
    usable: the base URL is not empty, the User-Agent is
    "uptime-betterstack-bun/" followed by a non-empty version, and the
    default timeout is neither [NaN] nor zero. *)
Theorem constructor_fields_are_usable (config : option UptimeConfig.t) :
  let c := constructor config in
  baseUrl c <> ""%string
  /\ (exists v, v <> ""%string /\ userAgent c = "uptime-betterstack-bun/" +:+ v)
  /\ defaultTimeout c <> JS.NaN
  /\ (forall q, JS.value (defaultTimeout c) = Some q -> ~ (q == 0)%Q).
Proof.
  assert (Hnum : forall x, JS.truthy_number x = true ->
             x <> JS.NaN /\ forall q, JS.value x = Some q -> ~ (q == 0)%Q).
  { intros [|n|s e]; cbn; [discriminate| |].
    - intros _. split; discriminate.
    - intros Hs. apply negb_true_iff, Z.eqb_neq in Hs. split; [discriminate|].
      intros q [= <-] Hq. apply Qmult_integral in Hq as [Hq|Hq].
      + apply Hs. unfold Qeq in Hq. cbn in Hq. lia.
      + pose proof (Qpower_0_lt (inject_Z 10) e eq_refl) as Hpos.
        rewrite Hq in Hpos. discriminate. }
  unfold constructor. cbn [baseUrl userAgent defaultTimeout].
  split; [|split].
  - destruct (config ≫= UptimeConfig.baseUrl) as [b|]; [|discriminate].
    destruct (JS.truthy_string b) eqn:Hb; [|discriminate].
    now apply truthy_string_nonempty.
  - eexists. split; [|reflexivity]. unfold JS.or_string.
    destruct (config ≫= UptimeConfig.version) as [v|]; [|discriminate].
    destruct (JS.truthy_string v) eqn:Hv; [|discriminate].
    now apply truthy_string_nonempty.
  - apply Hnum. unfold JS.or_number.
    destruct (config ≫= UptimeConfig.defaultTimeout) as [x|]; [|reflexivity].
    now destruct (JS.truthy_number x) eqn:Hx.
Qed.

(** ** Timers and controllers over a client's lifetime *)

(** X9.  Calls do not touch each other's timers: after a call every timer
    but its own is armed or not as before, no controller aborted before is
    forgotten, and the only controller the call can add to the aborted
    ones is its own. *)
Theorem sendHeartbeat_leaves_other_timers (fetch : Request -> promise)
    (heartbeatId : string) (options : option HeartbeatOptions.t) (w : world)
    (id : nat) :
  id <> nextTimer w ->
  let w' := snd (run (sendHeartbeat fetch heartbeatId options) w) in
  timers w' !! id = timers w !! id
  /\ aborted w ⊆ aborted w'
  /\ aborted w' ⊆ {[controllers w]} ∪ aborted w.
Proof.
  intros Hid. pose proof (sendHeartbeat_effect fetch heartbeatId options w) as H.
  cbn zeta in *.
  destruct (buildHeartbeatUrl (this w) heartbeatId options) as [e|url].
  - rewrite H. repeat split; set_solver.
  - destruct H as (_ & _ & _ & [[-> ->]|[[-> ->]|[-> ->]]]);
      rewrite ?lookup_insert_ne, ?lookup_delete_ne by auto;
      repeat split; set_solver.
Qed.

Lemma sendHeartbeat_leaves_other_timers_witness :
  let rejecting := fun _ : Request => SettlesFirst (Rejected networkError) in
  let answering := fun _ : Request => SettlesFirst (Fulfilled response200) in
  let w := snd (run (sendHeartbeat rejecting "first" None) (new None)) in
  timers (snd (run (sendHeartbeat answering "second" None) w)) !! 0%nat
  = Some (mkTimer 0 (JS.Int 10000)).
Proof.
  intros rejecting answering w.
  rewrite (proj1 (sendHeartbeat_leaves_other_timers answering "second" None w 0
                    ltac:(discriminate))).
  reflexivity.
Defined.

Lemma wellFormed_new (config : option UptimeConfig.t) : wellFormed (new config).
Proof. split; cbn; [intros id t H | intros c H]; set_solver. Qed.

Lemma wellFormed_fire (id : nat) (w : world) :
  wellFormed w -> wellFormed (fire id w).
Proof.
  intros [Ht Ha]. unfold fire. destruct (timers w !! id) as [t|] eqn:Hid;
    [|now split].
  split; cbn.
  - intros id' t' H. apply lookup_delete_Some in H as [_ H]. eauto.
  - intros c Hc. apply elem_of_union in Hc as [Hc|Hc]; [|auto].
    apply elem_of_singleton in Hc as ->. now apply (Ht id t).
Qed.

Lemma wellFormed_sendHeartbeat (fetch : Request -> promise)
    (heartbeatId : string) (options : option HeartbeatOptions.t) (w : world) :
  wellFormed w ->
  wellFormed (snd (run (sendHeartbeat fetch heartbeatId options) w)).
Proof.
  intros [Ht Ha]. pose proof (sendHeartbeat_effect fetch heartbeatId options w) as H.
  cbn zeta in H.
  destruct (buildHeartbeatUrl (this w) heartbeatId options) as [e|url].
  - rewrite H. now split.
  - destruct H as (Hn & Hc & _ & Hcase). unfold wellFormed. rewrite Hn, Hc.
    destruct Hcase as [[-> ->]|[[-> ->]|[-> ->]]]; split.
    + intros id t H. apply lookup_insert_Some in H as [[<- <-]|[_ H]]; cbn;
        [lia|]. apply Ht in H. lia.
    + intros c H. apply Ha in H. lia.
    + intros id t H. apply lookup_delete_Some in H as [_ H]. apply Ht in H. lia.
    + intros c H. apply Ha in H. lia.
    + intros id t H. apply lookup_delete_Some in H as [_ H]. apply Ht in H. lia.
    + intros c H. apply elem_of_union in H as [H|H];
        [apply elem_of_singleton in H; lia | apply Ha in H; lia].
Qed.

Lemma wellFormed_step (w : world) (ev : event) :
  wellFormed w -> wellFormed (step w ev).
Proof.
  intros H. destruct ev as [fetch c|id]; cbn;
    [destruct c; now apply wellFormed_sendHeartbeat | now apply wellFormed_fire].
Qed.

Lemma wellFormed_lifetime (evs : list event) (w : world) :
  wellFormed w -> wellFormed (lifetime evs w).
Proof.
  revert w. induction evs as [|ev evs IH]; intros w H; [exact H|].
  apply IH, wellFormed_step, H.
Qed.

(** X10.  At any point of a client's life, a call whose response arrives
    before its timer leaves the host's armed timers and aborted
    controllers exactly as it found them: nothing of the call outlives
    it. *)
Theorem answered_call_leaves_no_timer (config : option UptimeConfig.t)
    (evs : list event) (fetch : Request -> promise) (heartbeatId : string)
    (options : option HeartbeatOptions.t) (url : string) (r : Response) :
  let w := lifetime evs (new config) in
  buildHeartbeatUrl (this w) heartbeatId options = inr url ->
  fetch (requestOf (this w) url options (controllers w))
  = SettlesFirst (Fulfilled r) ->
  let w' := snd (run (sendHeartbeat fetch heartbeatId options) w) in
  timers w' = timers w /\ aborted w' = aborted w.
Proof.
  intros w Hurl Hfetch.
  assert (Hwf : wellFormed w) by apply wellFormed_lifetime, wellFormed_new.
  cbn zeta. rewrite (sendHeartbeat_cases fetch _ _ _ _ Hurl). cbn zeta.
  rewrite Hfetch. cbn. split; [|reflexivity].
  apply delete_insert_id.
  destruct (timers w !! nextTimer w) as [t|] eqn:Ht; [|reflexivity].
  apply Hwf in Ht. lia.
Qed.

Lemma answered_call_leaves_no_timer_witness :
  let rejecting := fun _ : Request => SettlesFirst (Rejected networkError) in
  let answering := fun _ : Request => SettlesFirst (Fulfilled response200) in
  let w := lifetime [Call rejecting (SendHeartbeat "first" None)] (new None) in
  timers (snd (run (sendHeartbeat answering "second" None) w)) = timers w.
Proof.
  intros rejecting answering w.
  exact (proj1 (answered_call_leaves_no_timer None
                  [Call rejecting (SendHeartbeat "first" None)] answering
                  "second" None _ response200 eq_refl eq_refl)).
Defined.

Lemma unabortable_fire (c id : nat) (w : world) :
  unabortable c w -> unabortable c (fire id w).
Proof.
  intros (Hc & Ha & Ht). unfold fire.
  destruct (timers w !! id) as [t|] eqn:Hid; [|now repeat split].
  repeat split; cbn; [exact Hc| |].
  - apply Ht in Hid. rewrite not_elem_of_union, not_elem_of_singleton.
    split; [congruence | exact Ha].
  - intros id' t' H. apply lookup_delete_Some in H as [_ H]. eauto.
Qed.

Lemma unabortable_sendHeartbeat (c : nat) (fetch : Request -> promise)
    (heartbeatId : string) (options : option HeartbeatOptions.t) (w : world) :
  unabortable c w ->
  unabortable c (snd (run (sendHeartbeat fetch heartbeatId options) w)).
Proof.
  intros (Hc & Ha & Ht).
  pose proof (sendHeartbeat_effect fetch heartbeatId options w) as H.
  cbn zeta in H.
  destruct (buildHeartbeatUrl (this w) heartbeatId options) as [e|url].
  - rewrite H. now repeat split.
  - destruct H as (_ & Hn & _ & Hcase). unfold unabortable. rewrite Hn.
    assert (Hne : controllers w <> c) by lia.
    destruct Hcase as [[-> ->]|[[-> ->]|[-> ->]]];
      (split; [lia|]);
      (split; [rewrite ?not_elem_of_union, ?not_elem_of_singleton; auto|]);
      intros id t H.
    + apply lookup_insert_Some in H as [[_ <-]|[_ H]]; cbn; eauto.
    + apply lookup_delete_Some in H as [_ H]. eauto.
    + apply lookup_delete_Some in H as [_ H]. eauto.
Qed.

Lemma unabortable_lifetime (c : nat) (evs : list event) (w : world) :
  unabortable c w -> unabortable c (lifetime evs w).
Proof.
  revert w. induction evs as [|ev evs IH]; intros w H; [exact H|].
  apply IH. destruct ev as [fetch k|id]; cbn;
    [destruct k; now apply unabortable_sendHeartbeat
    | now apply unabortable_fire].
Qed.

(** X11.  At any point of a client's life, the controller of a call whose
    response arrives before its timer is never aborted afterwards,
    whatever calls are made and whichever timers elapse later. *)
Theorem answered_call_is_never_aborted (config : option UptimeConfig.t)
    (evs later : list event) (fetch : Request -> promise)
    (heartbeatId : string) (options : option HeartbeatOptions.t)
    (url : string) (r : Response) :
  let w := lifetime evs (new config) in
  buildHeartbeatUrl (this w) heartbeatId options = inr url ->
  fetch (requestOf (this w) url options (controllers w))
  = SettlesFirst (Fulfilled r) ->
  controllers w
  ∉ aborted (lifetime later (snd (run (sendHeartbeat fetch heartbeatId options) w))).
Proof.
  intros w Hurl Hfetch.
  assert (Hwf : wellFormed w) by apply wellFormed_lifetime, wellFormed_new.
  apply (unabortable_lifetime (controllers w) later).
  rewrite (sendHeartbeat_cases fetch _ _ _ _ Hurl). cbn zeta.
  rewrite Hfetch. cbn. destruct Hwf as [Ht Ha]. repeat split; cbn.
  - lia.
  - intros H. apply Ha in H. lia.
  - intros id t H. apply lookup_delete_Some in H as [Hid H].
    rewrite lookup_insert_ne in H by auto. apply Ht in H. lia.
Qed.

Lemma answered_call_is_never_aborted_witness :
  let answering := fun _ : Request => SettlesFirst (Fulfilled response200) in
  let rejecting := fun _ : Request => SettlesFirst (Rejected networkError) in
  0%nat ∉ aborted (lifetime [Call rejecting (ReportFailure "second" None);
                             TimerElapses 0; TimerElapses 1]
                     (snd (run (sendHeartbeat answering "first" None)
                             (lifetime [] (new None))))).
Proof.
  intros answering rejecting.
  exact (answered_call_is_never_aborted None [] _ answering "first" None _
           response200 eq_refl eq_refl).
Defined.

(** ** The requests of a lifetime *)

Lemma step_fetched (w : world) (ev : event) :
  fetched w `prefix_of` fetched (step w ev)
  /\ (length (fetched (step w ev)) <= length (fetched w) + calls [ev])%nat.
Proof.
  destruct ev as [fetch c|id]; cbn.
  - assert (H : forall i o,
               fetched w `prefix_of` fetched (snd (run (sendHeartbeat fetch i o) w))
               /\ (length (fetched (snd (run (sendHeartbeat fetch i o) w)))
                   <= length (fetched w) + 1)%nat).
    { intros i o. pose proof (sendHeartbeat_effect fetch i o w) as H.
      cbn zeta in H. destruct (buildHeartbeatUrl (this w) i o).
      - rewrite H. split; [reflexivity | lia].
      - destruct H as (_ & _ & -> & _). split; [now apply prefix_app_r|].
        rewrite length_app. cbn. lia. }
    destruct c; apply H.
  - unfold fire.
    destruct (timers w !! id); cbn; split; (reflexivity || lia).
Qed.

(** X12.  Over any course of events the requests handed to the transport
    only accumulate: earlier ones stay in place and in order, every call
    adds at most one (no retry), and an elapsing timer adds none. *)
Theorem lifetime_requests_accumulate (evs : list event) (w : world) :
  fetched w `prefix_of` fetched (lifetime evs w)
  /\ (length (fetched (lifetime evs w)) <= length (fetched w) + calls evs)%nat.
Proof.
  revert w. induction evs as [|ev evs IH]; intros w.
  - cbn. split; [reflexivity | lia].
  - destruct (step_fetched w ev) as [Hp Hl].
    destruct (IH (step w ev)) as [Hp' Hl'].
    change (lifetime (ev :: evs) w) with (lifetime evs (step w ev)).
    split; [now transitivity (fetched (step w ev))|].
    unfold calls in *. cbn [List.filter] in *.
    destruct ev; cbn [length] in *; lia.
Qed.

(** * The earlier revision *)

(** Once the request is out, the [try]/[catch] of the earlier revision:
    a response that is ok is returned, anything else is logged and
    rethrown. *)
Lemma legacy_send (fetch : Legacy.Request -> option settled)
    (heartbeatId : string) (options : option Legacy.HeartbeatOptions.t)
    (h : Legacy.host) :
  let base := Legacy.baseUrl (Legacy.this h) +:+ "/heartbeat/" +:+ heartbeatId in
  let out (url : string) :=
    let req := Legacy.mkRequest url
                 (default GET (options ≫= Legacy.HeartbeatOptions.method))
                 [("Accept", "application/json");
                  ("User-Agent", "uptime-betterstack-bun/1.0.0")]%string in
    let sent := Legacy.mkHost (Legacy.this h) (Legacy.console h)
                  (Legacy.fetched h ++ [req]) in
    let logged (e : thrown) :=
      (Thrown e,
       Legacy.mkHost (Legacy.this h)
         (Legacy.console h ++ [("Failed to send heartbeat:"%string, e)])
         (Legacy.fetched h ++ [req])) in
    match fetch req with
    | Some (Fulfilled r) =>
        if ok r then (Returned r, sent)
        else logged (Error "Error"
                       ("Heartbeat failed: " +:+ JS.toString (status r)
                        +:+ " " +:+ statusText r))
    | Some (Rejected e) => logged e
    | None => (Pending, sent)
    end in
  Legacy.run (Legacy.sendHeartbeat fetch heartbeatId options) h =
  if default false (options ≫= Legacy.HeartbeatOptions.reportFailure) then
    out (base +:+ "/fail")
  else
    match options ≫= Legacy.HeartbeatOptions.exitCode with
    | Some x =>
        if JS.lt x (JS.Int 0) || JS.gt x (JS.Int 255) then
          (Thrown (Error "Error" "Exit code must be between 0 and 255"), h)
        else out (base +:+ "/" +:+ JS.toString x)
    | None => out base
    end.
Proof.
  cbn zeta. unfold Legacy.sendHeartbeat, Legacy.try_catch. cbn.
  destruct (default false _); cbn.
  - destruct (fetch _) as [[r|e]|]; cbn; [destruct (ok r)| |]; reflexivity.
  - destruct (options ≫= Legacy.HeartbeatOptions.exitCode) as [x|]; cbn.
    + destruct (_ || _); cbn; [reflexivity|].
      destruct (fetch _) as [[r|e]|]; cbn; [destruct (ok r)| |]; reflexivity.
    + destruct (fetch _) as [[r|e]|]; cbn; [destruct (ok r)| |]; reflexivity.
Qed.

Lemma legacyOptions_fields (options : option HeartbeatOptions.t) :
  (legacyOptions <$> options) ≫= Legacy.HeartbeatOptions.reportFailure
  = options ≫= HeartbeatOptions.reportFailure
  /\ (legacyOptions <$> options) ≫= Legacy.HeartbeatOptions.exitCode
     = options ≫= HeartbeatOptions.exitCode
  /\ (legacyOptions <$> options) ≫= Legacy.HeartbeatOptions.method
     = options ≫= HeartbeatOptions.method.
Proof. now destruct options. Qed.

(** X13.  For a non-empty identifier the two revisions hand the transport
    the same requests, signal apart: a client with the same base URL and
    the default User-Agent sends the URL, method and headers the earlier
    revision sends, and sends nothing exactly when the earlier one sends
    nothing. *)
Theorem revisions_send_the_same_request
    (fetchL : Legacy.Request -> option settled) (fetch : Request -> promise)
    (heartbeatId : string) (options : option HeartbeatOptions.t)
    (h : Legacy.host) (w : world) :
  heartbeatId <> ""%string ->
  baseUrl (this w) = Legacy.baseUrl (Legacy.this h) ->
  userAgent (this w) = "uptime-betterstack-bun/1.0.0"%string ->
  map legacyRequest (fetched w) = Legacy.fetched h ->
  map legacyRequest (fetched (snd (run (sendHeartbeat fetch heartbeatId options) w)))
  = Legacy.fetched
      (snd (Legacy.run (Legacy.sendHeartbeat fetchL heartbeatId
                          (legacyOptions <$> options)) h)).
Proof.
  intros Hid Hbase Hua Hlog.
  pose proof (sendHeartbeat_effect fetch heartbeatId options w) as H.
  cbn zeta in H. rewrite legacy_send. cbn zeta.
  destruct (legacyOptions_fields options) as (-> & -> & ->).
  revert H. unfold buildHeartbeatUrl.
  apply truthy_string_nonempty in Hid. rewrite Hid, Hbase. cbn [negb].
  unfold requestOf. rewrite Hua.
  destruct (default false _).
  - intros (_ & _ & -> & _). rewrite map_app, Hlog. cbn.
    destruct (fetchL _) as [[r|e]|]; [destruct (ok r)| |]; reflexivity.
  - destruct (options ≫= HeartbeatOptions.exitCode) as [x|].
    + destruct (_ || _).
      * now intros ->.
      * intros (_ & _ & -> & _). rewrite map_app, Hlog. cbn.
        destruct (fetchL _) as [[r|e]|]; [destruct (ok r)| |]; reflexivity.
    + intros (_ & _ & -> & _). rewrite map_app, Hlog. cbn.
      destruct (fetchL _) as [[r|e]|]; [destruct (ok r)| |]; reflexivity.
Qed.

Lemma revisions_send_the_same_request_witness :
  map legacyRequest
    (fetched (snd (run (reportWithExitCode
                          (fun _ => SettlesFirst (Rejected networkError))
                          "abc123" (JS.Int 42) None) (new None))))
  = Legacy.fetched
      (snd (Legacy.run (Legacy.reportWithExitCode (fun _ => None) "abc123"
                          (JS.Int 42) None) (Legacy.new None))).
Proof.
  apply (revisions_send_the_same_request (fun _ => None)
           (fun _ => SettlesFirst (Rejected networkError)) "abc123"
           (Some (HeartbeatOptions.mk (Some (JS.Int 42)) None None None))
           (Legacy.new None) (new None));
    [discriminate | reflexivity | reflexivity | reflexivity].
Defined.

(** X14.  Against a transport that rejects every request with [e], the
    earlier revision fails in one of two ways, told apart by its exit-code
    check alone.  When failure reporting is off and the exit code given is
    below 0 or above 255, it throws its own exit-code error and leaves the
    host as it was: nothing is sent or logged.  In every other case it
    sends one request, logs [e] once under "Failed to send heartbeat:" and
    rejects with [e] itself, unwrapped. *)
Theorem legacy_rethrows_raw_errors (fetch : Legacy.Request -> option settled)
    (heartbeatId : string) (options : option Legacy.HeartbeatOptions.t)
    (h : Legacy.host) (e : thrown) :
  (forall req, fetch req = Some (Rejected e)) ->
  let r := Legacy.run (Legacy.sendHeartbeat fetch heartbeatId options) h in
  let refused :=
    negb (default false (options ≫= Legacy.HeartbeatOptions.reportFailure))
    && match options ≫= Legacy.HeartbeatOptions.exitCode with
       | Some x => JS.lt x (JS.Int 0) || JS.gt x (JS.Int 255)
       | None => false
       end in
  if refused then
    fst r = Thrown (Error "Error" "Exit code must be between 0 and 255")
    /\ snd r = h
  else
    fst r = Thrown e
    /\ Legacy.this (snd r) = Legacy.this h
    /\ Legacy.console (snd r)
       = Legacy.console h ++ [("Failed to send heartbeat:"%string, e)]
    /\ length (Legacy.fetched (snd r)) = S (length (Legacy.fetched h)).
Proof.
  intros Hfetch. cbn zeta. rewrite legacy_send. cbn zeta.
  destruct (default false _); [|destruct (_ ≫= _) as [x|]; [destruct (_ || _)|]];
    rewrite ?Hfetch; cbn; rewrite ?length_app; cbn;
    repeat split; lia.
Qed.

Lemma legacy_rethrows_raw_errors_witness :
  let r := Legacy.run (Legacy.sendHeartbeat
                         (fun _ => Some (Rejected networkError)) "abc123" None)
             (Legacy.new None) in
  fst r = Thrown networkError
  /\ Legacy.this (snd r) = Legacy.this (Legacy.new None)
  /\ Legacy.console (snd r) = [("Failed to send heartbeat:"%string, networkError)]
  /\ length (Legacy.fetched (snd r)) = 1%nat.
Proof.
  exact (legacy_rethrows_raw_errors (fun _ => Some (Rejected networkError))
           "abc123" None (Legacy.new None) networkError (fun _ => eq_refl)).
Defined.

(** X15.  The earlier revision does not look at the identifier: for the
    empty identifier it sends a request to [{baseUrl}/heartbeat/], which
    the current revision refuses to build. *)
Theorem legacy_sends_for_empty_id (fetch : Legacy.Request -> option settled)
    (h : Legacy.host) (this : Uptime) :
  Legacy.fetched (snd (Legacy.run (Legacy.sendHeartbeat fetch "" None) h))
  = Legacy.fetched h
    ++ [Legacy.mkRequest (Legacy.baseUrl (Legacy.this h) +:+ "/heartbeat/") GET
          [("Accept", "application/json");
           ("User-Agent", "uptime-betterstack-bun/1.0.0")]%string]
  /\ buildHeartbeatUrl this "" None
     = inl (UptimeError "Heartbeat ID is required" None None None).
Proof.
  split; [|reflexivity]. rewrite legacy_send. cbn.
  destruct (fetch _) as [[r|e]|]; [destruct (ok r)| |]; reflexivity.
Qed.

(** X16.  Upgrading keeps the answers: with a non-empty identifier, the
    same base URL and the default User-Agent, against a transport that
    settles each request before the timer elapses, the current revision is
    fulfilled with a response exactly when the earlier one is, and neither
    stays pending. *)
Theorem revisions_return_alike (fetchL : Legacy.Request -> settled)
    (heartbeatId : string) (options : option HeartbeatOptions.t)
    (h : Legacy.host) (w : world) (r : Response) :
  heartbeatId <> ""%string ->
  baseUrl (this w) = Legacy.baseUrl (Legacy.this h) ->
  userAgent (this w) = "uptime-betterstack-bun/1.0.0"%string ->
  let old := fst (Legacy.run (Legacy.sendHeartbeat (fun q => Some (fetchL q))
                                heartbeatId (legacyOptions <$> options)) h) in
  let current := fst (run (sendHeartbeat
                             (fun q => SettlesFirst (fetchL (legacyRequest q)))
                             heartbeatId options) w) in
  (old = Returned r <-> current = Returned r)
  /\ old <> Pending /\ current <> Pending.
Proof.
  intros Hid Hbase Hua. cbn zeta. rewrite legacy_send. cbn zeta.
  destruct (legacyOptions_fields options) as (-> & -> & ->).
  apply truthy_string_nonempty in Hid.
  assert (Hsent : forall url,
            buildHeartbeatUrl (this w) heartbeatId options = inr url ->
            let old :=
              fst match fetchL (Legacy.mkRequest url
                                  (default GET (options ≫= HeartbeatOptions.method))
                                  [("Accept", "application/json");
                                   ("User-Agent", "uptime-betterstack-bun/1.0.0")]%string)
                  with
                  | Fulfilled r0 =>
                      if ok r0
                      then (Returned r0,
                            Legacy.mkHost (Legacy.this h) (Legacy.console h)
                              (Legacy.fetched h
                               ++ [Legacy.mkRequest url
                                     (default GET (options ≫= HeartbeatOptions.method))
                                     [("Accept", "application/json");
                                      ("User-Agent", "uptime-betterstack-bun/1.0.0")]%string]))
                      else (Thrown (Error "Error"
                                      ("Heartbeat failed: " +:+ JS.toString (status r0)
                                       +:+ " " +:+ statusText r0)),
                            Legacy.mkHost (Legacy.this h)
                              (Legacy.console h
                               ++ [("Failed to send heartbeat:"%string,
                                    Error "Error"
                                      ("Heartbeat failed: " +:+ JS.toString (status r0)
                                       +:+ " " +:+ statusText r0))])
                              (Legacy.fetched h
                               ++ [Legacy.mkRequest url
                                     (default GET (options ≫= HeartbeatOptions.method))
                                     [("Accept", "application/json");
                                      ("User-Agent", "uptime-betterstack-bun/1.0.0")]%string]))
                  | Rejected e =>
                      (Thrown e,
                       Legacy.mkHost (Legacy.this h)
                         (Legacy.console h ++ [("Failed to send heartbeat:"%string, e)])
                         (Legacy.fetched h
                          ++ [Legacy.mkRequest url
                                (default GET (options ≫= HeartbeatOptions.method))
                                [("Accept", "application/json");
                                 ("User-Agent", "uptime-betterstack-bun/1.0.0")]%string]))
                  end in
            let current := fst (run (sendHeartbeat
                                       (fun q => SettlesFirst (fetchL (legacyRequest q)))
                                       heartbeatId options) w) in
            (old = Returned r <-> current = Returned r)
            /\ old <> Pending /\ current <> Pending).
  { intros u Hurl. cbn zeta.
    rewrite (sendHeartbeat_cases _ _ _ _ _ Hurl). cbn zeta.
    unfold requestOf. rewrite Hua. cbn [legacyRequest url method headers].
    destruct (fetchL _) as [r0|e].
    - destruct (ok r0); cbn; repeat split; congruence.
    - cbn [fst].
      destruct (sendHeartbeat_catch_world
                  (effectiveTimeout (this w) options) e
                  (inflight w
                     (mkRequest u (default GET (options ≫= HeartbeatOptions.method))
                        [("Accept", "application/json");
                         ("User-Agent", "uptime-betterstack-bun/1.0.0")]%string
                        (controllers w))
                     (effectiveTimeout (this w) options)))
        as (_ & Hnp & Hnr).
      repeat split; try discriminate; try assumption.
      intros H. now apply Hnr in H. }
  revert Hsent. unfold buildHeartbeatUrl at 1. rewrite Hid, Hbase. cbn [negb].
  destruct (default false _) eqn:Hrf.
  - intros Hsent. apply (Hsent _ eq_refl).
  - destruct (options ≫= HeartbeatOptions.exitCode) as [x|] eqn:Hx.
    + destruct (_ || _) eqn:Hrange.
      * intros _. rewrite run_sendHeartbeat. unfold buildHeartbeatUrl.
        rewrite Hid, Hrf, Hx, Hrange. cbn. repeat split; discriminate.
      * intros Hsent. apply (Hsent _ eq_refl).
    + intros Hsent. apply (Hsent _ eq_refl).
Qed.

Lemma revisions_return_alike_witness :
  fst (Legacy.run (Legacy.sendHeartbeat (fun _ => Some (Fulfilled response200))
                     "abc123" None) (Legacy.new None)) = Returned response200
  <-> fst (run (sendHeartbeat (fun _ => SettlesFirst (Fulfilled response200))
                  "abc123" None) (new None)) = Returned response200.
Proof.
  exact (proj1 (revisions_return_alike (fun _ => Fulfilled response200) "abc123"
                  None (Legacy.new None) (new None) response200
                  ltac:(discriminate) eq_refl eq_refl)).
Defined.

(** * What a rejection carries *)

Lemma buildHeartbeatUrl_message_only (this : Uptime) (heartbeatId : string)
    (options : option HeartbeatOptions.t) (e : thrown) :
  buildHeartbeatUrl this heartbeatId options = inl e ->
  exists m, e = UptimeError m None None None.
Proof.
  unfold buildHeartbeatUrl.
  destruct (negb _); [intros [= <-]; eauto|].
  destruct (default false _); [discriminate|].
  destruct (options ≫= HeartbeatOptions.exitCode) as [x|]; [|discriminate].
  destruct (_ || _); [intros [= <-]; eauto | discriminate].
Qed.

(** X17.  Unless the transport itself rejects with an [UptimeError], the
    error of a rejected [sendHeartbeat] carries one kind of context at
    most: either no status and no status text (a validation, timeout or
    transport failure), or the status and status text of a response that
    was not ok and then no cause. *)
Theorem rejections_carry_one_context (fetch : Request -> promise)
    (heartbeatId : string) (options : option HeartbeatOptions.t) (w : world)
    (m : string) (s : option JS.number) (st : option string)
    (c : option thrown) :
  (forall req e,
      fetch req = SettlesFirst (Rejected e)
      \/ fetch req = TimerFirst (Some (Rejected e)) ->
      match e with UptimeError _ _ _ _ => False | _ => True end) ->
  fst (run (sendHeartbeat fetch heartbeatId options) w)
  = Thrown (UptimeError m s st c) ->
  (s = None /\ st = None)
  \/ (c = None
      /\ exists r, ok r = false /\ s = Some (status r) /\ st = Some (statusText r)).
Proof.
  intros Hraw.
  destruct (buildHeartbeatUrl (this w) heartbeatId options) as [e|u] eqn:Hurl.
  - rewrite run_sendHeartbeat, Hurl. intros [= ->].
    apply buildHeartbeatUrl_message_only in Hurl as (m' & [= _ -> -> _]). now left.
  - rewrite (sendHeartbeat_cases fetch _ _ _ _ Hurl). cbn zeta.
    set (t := effectiveTimeout (this w) options).
    destruct (fetch _) as [[r|e]|[[r|e]|]] eqn:Hf; cbn;
      try (destruct (ok r) eqn:Hok; cbn; [discriminate|];
           intros [= <- <- <- <-]; right; split; [reflexivity|]; now exists r);
      try discriminate;
      (assert (He : match e with UptimeError _ _ _ _ => False | _ => True end)
         by (apply (Hraw (requestOf (this w) u options (controllers w)) e);
             rewrite Hf; auto));
      (destruct e as [m0 s0 st0 c0|name m0|name m0]; [contradiction|..]); cbn;
      try destruct (String.eqb name "AbortError"); cbn;
      intros [= <- <- <- <-]; now left.
Qed.

Lemma rejections_carry_one_context_witness :
  (Some (JS.Int 404) = None /\ Some "Not Found"%string = None)
  \/ (@None thrown = None
      /\ exists r, ok r = false /\ Some (JS.Int 404) = Some (status r)
                   /\ Some "Not Found"%string = Some (statusText r)).
Proof.
  apply (rejections_carry_one_context
           (fun _ => SettlesFirst (Fulfilled response404)) "test-id" None
           (new None) "Heartbeat failed: 404 Not Found").
  - intros req e [H|H]; discriminate.
  - reflexivity.
Defined.
